(** * Beacon-kit: block verification core

    A shallow embedding of
      - beacon/blockchain/process_proposal.go   (module [Blockchain]),
      - the execution engine adapter            (module [Engine]),
      - mod/storage/statedb/statedb.go          (module [StateDB]),
    together with the properties of the specification that concern them.

    Go's [error] interface is [option err] ([None] is [nil]); calls to
    external collaborators (execution client, state processor, blob
    processor, codecs) are fields of interface records, and every call that
    matters to a property is recorded in an event trace. *)

From Stdlib Require Import ZArith Lia String.
From stdpp Require Import gmap list strings.

Local Open Scope list_scope.

(* ===================================================================== *)
(** ** Errors *)
(* ===================================================================== *)

Module Errors.

(** The sentinel errors named by the sources. [ErrOther] stands for any
    other error value (transport failures, codec failures, ...). *)
Inductive sentinel : Type :=
| ErrAcceptedPayloadStatus
| ErrSyncingPayloadStatus
| ErrInvalidPayloadStatus
| ErrInvalidBlockHashPayloadStatus
| ErrBadBlockProduced
| ErrNilBlk
| ErrOther (code : nat).

(** A non-nil error value: a sentinel, an error wrapped with a message, or
    the error package's [DetailedError] carrying its [fatal] flag. *)
Inductive err : Type :=
| Sentinel (s : sentinel)
| Wrap (msg : string) (inner : err)
| Detailed (inner : err) (fatal : bool).

(** Go's [error]: [None] is [nil]. *)
Definition error : Type := option err.

Definition sentinel_eqb (a b : sentinel) : bool :=
  match a, b with
  | ErrAcceptedPayloadStatus, ErrAcceptedPayloadStatus => true
  | ErrSyncingPayloadStatus, ErrSyncingPayloadStatus => true
  | ErrInvalidPayloadStatus, ErrInvalidPayloadStatus => true
  | ErrInvalidBlockHashPayloadStatus, ErrInvalidBlockHashPayloadStatus => true
  | ErrBadBlockProduced, ErrBadBlockProduced => true
  | ErrNilBlk, ErrNilBlk => true
  | ErrOther n, ErrOther m => Nat.eqb n m
  | _, _ => false
  end.

(** [errors.Is] on a non-nil error: walk the [Unwrap] chain and compare each
    link with the target sentinel. A [DetailedError] has no [Unwrap]
    method, so the walk ends there: [errors.Is] does not see the error it
    carries. *)
Fixpoint chain_has (e : err) (target : sentinel) : bool :=
  match e with
  | Sentinel s => sentinel_eqb s target
  | Wrap _ inner => chain_has inner target
  | Detailed _ _ => false
  end.

(** [errors.Is(err, target)]; false on [nil]. *)
Definition Is (e : error) (target : sentinel) : bool :=
  match e with
  | None => false
  | Some e' => chain_has e' target
  end.

(** Modelled from the spec: the error package ([errors.WrapNonFatal],
    [errors.IsFatal]) is not among the sources. Section 7 of the
    specification distinguishes non-fatal from fatal errors; [WrapNonFatal]
    tags an error as non-fatal. *)
Definition WrapNonFatal (e : err) : err := Detailed e false.

(** The first [DetailedError] met along the chain, if any ([errors.As]). *)
Fixpoint first_detailed (e : err) : option bool :=
  match e with
  | Sentinel _ => None
  | Wrap _ inner => first_detailed inner
  | Detailed _ fatal => Some fatal
  end.

(** Modelled from the spec: [errors.IsFatal]. [nil] is not fatal; an error
    tagged by the error package has the fatality of its tag; every untagged
    error is fatal. *)
Definition IsFatal (e : error) : bool :=
  match e with
  | None => false
  | Some e' =>
      match first_detailed e' with
      | Some fatal => fatal
      | None => true
      end
  end.

End Errors.

(* ===================================================================== *)
(** ** Execution engine adapter *)
(* ===================================================================== *)

Module Engine.
Import Errors.

Definition ExecutionHash : Type := Z.
Definition PayloadID : Type := Z.
Definition Root : Type := Z.

Record ForkchoiceState : Type := {
  HeadBlockHash : ExecutionHash;
  SafeBlockHash : ExecutionHash;
  FinalizedBlockHash : ExecutionHash
}.

Record PayloadAttributes : Type := {
  Timestamp : Z;
  PrevRandao : Z
}.

Record ForkchoiceUpdateRequest : Type := {
  State : ForkchoiceState;
  Attributes : option PayloadAttributes;
  ForkVersion : nat
}.

Record ExecutionPayload : Type := {
  BlockHash : ExecutionHash;
  ParentHash : ExecutionHash
}.

Record NewPayloadRequest : Type := {
  Payload : ExecutionPayload;
  VersionedHashes : list ExecutionHash;
  ParentBeaconBlockRoot : option Root;
  SkipIfExists : bool;
  Optimistic : bool;
  (** the outcome of [req.HasValidVersionedAndBlockHashes()], a local check
      of the request whose code is not among the sources *)
  HashesCheck : error
}.

Definition Header : Type := Z.

(** The execution client [ee.ec]: three RPCs against a client whose state
    is [S]. Each call returns its reply and the client's next state. *)
Record EngineClient (S : Type) : Type := {
  ForkchoiceUpdated :
    S -> ForkchoiceState -> option PayloadAttributes -> nat ->
    (option PayloadID * option ExecutionHash * error) * S;
  HeaderByHash :
    S -> ExecutionHash -> (option Header * error) * S;
  NewPayload :
    S -> ExecutionPayload -> list ExecutionHash -> option Root ->
    (option ExecutionHash * error) * S
}.
Arguments ForkchoiceUpdated {S} _ _ _ _ _.
Arguments HeaderByHash {S} _ _ _.
Arguments NewPayload {S} _ _ _ _ _.

(** The RPCs issued, in order, with the error each one replied. *)
Inductive Call : Type :=
| CallForkchoiceUpdated (st : ForkchoiceState) (reply : error)
| CallHeaderByHash (h : ExecutionHash) (reply : error)
| CallNewPayload (p : ExecutionPayload) (reply : error).

Definition is_forkchoice_call (c : Call) : bool :=
  match c with CallForkchoiceUpdated _ _ => true | _ => false end.

Definition is_new_payload_call (c : Call) : bool :=
  match c with CallNewPayload _ _ => true | _ => false end.

(** The two reply classes the adapter's [switch] tests for. *)
Definition is_optimistic_status (e : error) : bool :=
  Is e ErrAcceptedPayloadStatus || Is e ErrSyncingPayloadStatus.

Definition is_invalid_status (e : error) : bool :=
  Is e ErrInvalidPayloadStatus || Is e ErrInvalidBlockHashPayloadStatus.

Definition set_head_to_safe (req : ForkchoiceUpdateRequest)
  : ForkchoiceUpdateRequest :=
  {| State := {| HeadBlockHash := SafeBlockHash (State req);
                 SafeBlockHash := SafeBlockHash (State req);
                 FinalizedBlockHash := FinalizedBlockHash (State req) |};
     Attributes := Attributes req;
     ForkVersion := ForkVersion req |}.

(** What a call to [NotifyForkchoiceUpdate] leaves behind: its three return
    values, the request (which it mutates through the pointer), the client's
    state and the RPCs issued. *)
Record FcuOutcome (S : Type) : Type := {
  fcu_payloadID : option PayloadID;
  fcu_latestValidHash : option ExecutionHash;
  fcu_err : error;
  fcu_req : ForkchoiceUpdateRequest;
  fcu_client : S;
  fcu_calls : list Call
}.
Arguments fcu_payloadID {S} _.
Arguments fcu_latestValidHash {S} _.
Arguments fcu_err {S} _.
Arguments fcu_req {S} _.
Arguments fcu_client {S} _.
Arguments fcu_calls {S} _.

(** [NotifyForkchoiceUpdate]. The Go function recurses on itself without a
    counter; [fuel] bounds the recursion depth of the model and [None] means
    the fuel ran out before the function returned. *)
Fixpoint NotifyForkchoiceUpdate {S : Type} (fuel : nat) (ec : EngineClient S)
    (s : S) (req : ForkchoiceUpdateRequest) : option (FcuOutcome S) :=
  match fuel with
  | O => None
  | Datatypes.S fuel' =>
      let '(payloadID, latestValidHash, e, s1) :=
        ForkchoiceUpdated ec s (State req) (Attributes req) (ForkVersion req) in
      let call := CallForkchoiceUpdated (State req) e in
      if is_optimistic_status e then
        Some {| fcu_payloadID := payloadID; fcu_latestValidHash := None;
                fcu_err := None; fcu_req := req; fcu_client := s1;
                fcu_calls := [call] |}
      else if is_invalid_status e then
        match NotifyForkchoiceUpdate fuel' ec s1 (set_head_to_safe req) with
        | None => None
        | Some r =>
            match fcu_err r with
            | Some e' =>
                Some {| fcu_payloadID := None; fcu_latestValidHash := None;
                        fcu_err := Some e'; fcu_req := fcu_req r;
                        fcu_client := fcu_client r;
                        fcu_calls := call :: fcu_calls r |}
            | None =>
                Some {| fcu_payloadID := fcu_payloadID r;
                        fcu_latestValidHash := fcu_latestValidHash r;
                        fcu_err := Some (Sentinel ErrBadBlockProduced);
                        fcu_req := fcu_req r;
                        fcu_client := fcu_client r;
                        fcu_calls := call :: fcu_calls r |}
            end
        end
      else
        match e with
        | Some e' =>
            Some {| fcu_payloadID := None; fcu_latestValidHash := None;
                    fcu_err := Some e'; fcu_req := req; fcu_client := s1;
                    fcu_calls := [call] |}
        | None =>
            Some {| fcu_payloadID := payloadID;
                    fcu_latestValidHash := latestValidHash;
                    fcu_err := None; fcu_req := req; fcu_client := s1;
                    fcu_calls := [call] |}
        end
  end.

(** [VerifyAndNotifyNewPayload]: the returned error, the client's state and
    the RPCs issued. *)
Definition VerifyAndNotifyNewPayload {S : Type} (ec : EngineClient S)
    (s : S) (req : NewPayloadRequest) : error * S * list Call :=
  match HashesCheck req with
  | Some e => (Some e, s, [])
  | None =>
      if SkipIfExists req then
        let '(header, e, s1) := HeaderByHash ec s (BlockHash (Payload req)) in
        (* the test on [header] and [e] guards a log line only *)
        (None, s1, [CallHeaderByHash (BlockHash (Payload req)) e])
      else
        let '(lastValidHash, e, s1) :=
          NewPayload ec s (Payload req) (VersionedHashes req)
                     (ParentBeaconBlockRoot req) in
        let calls := [CallNewPayload (Payload req) e] in
        if is_optimistic_status e then
          if Optimistic req then (None, s1, calls) else (e, s1, calls)
        else if is_invalid_status e then
          (Some (Sentinel ErrBadBlockProduced), s1, calls)
        else (e, s1, calls)
  end.

(** A reply makes [NotifyForkchoiceUpdate] recurse when the second case of
    its [switch] is the first to match. *)
Definition triggers_retry (e : error) : bool :=
  negb (is_optimistic_status e) && is_invalid_status e.

(** The number of forkchoice updates sent beyond the first. *)
Definition retries (calls : list Call) : nat :=
  List.length (List.filter is_forkchoice_call calls) - 1.

(** A scripted execution client for concrete runs: its state is the list of
    replies still to give; every RPC consumes the next one, and an exhausted
    script answers with a transport error. *)
Record Reply : Type := {
  reply_payloadID : option PayloadID;
  reply_hash : option ExecutionHash;
  reply_header : option Header;
  reply_err : error
}.

Definition transport_error : error := Some (Sentinel (ErrOther 0)).

Definition next_reply (script : list Reply) : Reply * list Reply :=
  match script with
  | [] => ({| reply_payloadID := None; reply_hash := None;
              reply_header := None; reply_err := transport_error |}, [])
  | r :: rest => (r, rest)
  end.

Definition scripted : EngineClient (list Reply) :=
  {| ForkchoiceUpdated := fun s _ _ _ =>
       let '(r, s') := next_reply s in
       (reply_payloadID r, reply_hash r, reply_err r, s');
     HeaderByHash := fun s _ =>
       let '(r, s') := next_reply s in (reply_header r, reply_err r, s');
     NewPayload := fun s _ _ _ =>
       let '(r, s') := next_reply s in (reply_hash r, reply_err r, s') |}.

Definition status_reply (st : sentinel) : Reply :=
  {| reply_payloadID := Some 7%Z; reply_hash := Some 9%Z;
     reply_header := None; reply_err := Some (Sentinel st) |}.

Definition valid_reply : Reply :=
  {| reply_payloadID := Some 7%Z; reply_hash := Some 9%Z;
     reply_header := Some 1%Z; reply_err := None |}.

End Engine.

(* ===================================================================== *)
(** ** State store *)
(* ===================================================================== *)

Module StateDB.

(** One layer of the key-value backend a context reads and writes. A base
    layer has no parent; a cache layer buffers writes over its parent. In
    [dirty], [Some v] is a stored value and [None] a deletion. *)
Record Layer : Type := {
  parent : option nat;
  dirty : gmap string (option string)
}.

(** All layers alive, shared by every handle; a context is the index of its
    layer. Two handles with the same index alias the same store. *)
Abbreviation Heap := (list Layer).

(** Read key [k] through layer [c]: the layer's own entry if it has one,
    otherwise its parent's view. *)
Fixpoint read (fuel : nat) (h : Heap) (c : nat) (k : string)
  : option string :=
  match fuel with
  | O => None
  | S fuel' =>
      match h !! c with
      | None => None
      | Some l =>
          match dirty l !! k with
          | Some ov => ov
          | None =>
              match parent l with
              | Some p => read fuel' h p k
              | None => None
              end
          end
      end
  end.

Definition Get (h : Heap) (c : nat) (k : string) : option string :=
  read (S c) h c k.

(** A write through context [c] touches layer [c] only. *)
Definition put (h : Heap) (c : nat) (k : string) (ov : option string)
  : Heap :=
  match h !! c with
  | Some l => <[c := {| parent := parent l; dirty := <[k := ov]> (dirty l) |}]> h
  | None => h
  end.

Inductive WriteOp : Type :=
| SetKey (k v : string)
| DeleteKey (k : string).

Definition apply_write (c : nat) (h : Heap) (op : WriteOp) : Heap :=
  match op with
  | SetKey k v => put h c k (Some v)
  | DeleteKey k => put h c k None
  end.

Definition apply_writes (h : Heap) (c : nat) (ops : list WriteOp) : Heap :=
  foldl (apply_write c) h ops.

(** Modelled from the spec: the cache context of the key-value layer
    ([sdk.Context.CacheContext]) is not among the sources. Per section 4.1
    it creates an overlay in which all writes are buffered; the overlay is a
    fresh layer over [c], and the returned [write] function is identified
    by the layer it flushes. *)
Definition CacheContext (h : Heap) (c : nat) : nat * Heap :=
  (List.length h, h ++ [{| parent := Some c; dirty := ∅ |}]).

(** Modelled from the spec: the [write] function returned with a cache
    context. It merges the buffered entries of layer [b] into its parent,
    the buffered entry winning, and empties the buffer. *)
Definition flush (h : Heap) (b : nat) : Heap :=
  match h !! b with
  | Some l =>
      match parent l with
      | Some p =>
          match h !! p with
          | Some lp =>
              <[b := {| parent := parent l; dirty := ∅ |}]>
                (<[p := {| parent := parent lp;
                           dirty := dirty l ∪ dirty lp |}]> h)
          | None => h
          end
      | None => h
      end
  | None => h
  end.

(** The [StateDB] struct. The collection fields are schema descriptors
    fixed at construction and shared by every copy; what distinguishes one
    handle from another is [ctx] ([None] is the nil context) and [write]
    ([None] is the nil function, [Some b] the closure flushing layer [b]). *)
Record StateDB : Type := {
  ctx : option nat;
  write : option nat
}.

(** [New]: [ctx: nil], and [write] left at its zero value. *)
Definition New : StateDB := {| ctx := None; write := None |}.

(** [WithContext]: [cpy := *s; cpy.ctx = ctx]. *)
Definition WithContext (s : StateDB) (c : nat) : StateDB :=
  {| ctx := Some c; write := write s |}.

(** [Context]. *)
Definition Context (s : StateDB) : option nat := ctx s.

(** [Copy]. Unwrapping a nil context panics ([None]). *)
Definition Copy (s : StateDB) (h : Heap) : option (StateDB * Heap) :=
  match ctx s with
  | None => None
  | Some c =>
      let '(cctx, h') := CacheContext h c in
      let ss := WithContext s cctx in
      Some ({| ctx := ctx ss; write := Some cctx |}, h')
  end.

(** [Save]. *)
Definition Save (s : StateDB) (h : Heap) : Heap :=
  match write s with
  | Some b => flush h b
  | None => h
  end.

(** Writes made through a handle go to the layer of its context. *)
Definition writes_through (s : StateDB) (h : Heap) (ops : list WriteOp)
  : Heap :=
  match ctx s with
  | Some c => apply_writes h c ops
  | None => h
  end.

(** The view of a handle: what each key reads as through its context. *)
Definition view (h : Heap) (s : StateDB) (k : string) : option string :=
  match ctx s with
  | Some c => Get h c k
  | None => None
  end.

(** Modelled from the spec: [hashTreeRoot] is not among the sources. Per
    section 3, invariant 6, it is a pure function of the state's fields in
    a fixed ordering: [merkle] applied to the values read at [fields]. *)
Definition hashTreeRoot (merkle : list (option string) -> Z)
    (fields : list string) (h : Heap) (s : StateDB) : Z :=
  merkle (map (view h s) fields).

(** Every cache layer sits above the layer it caches. *)
Definition wf (h : Heap) : Prop :=
  forall i l p, h !! i = Some l -> parent l = Some p -> p < i.

(** A handle is live when its context is a layer of the heap. *)
Definition live (h : Heap) (s : StateDB) : Prop :=
  exists c, ctx s = Some c /\ c < List.length h.

End StateDB.

(* ===================================================================== *)
(** ** Blockchain service *)
(* ===================================================================== *)

Module Blockchain.
Import Errors.

(** Indices of the beacon block and of the blob sidecars in the tx list. *)
Definition BeaconBlockTxIndex : nat := 0.
Definition BlobSidecarsTxIndex : nat := 1.

Record BeaconBlockHeader : Type := {
  hdr_slot : Z;
  hdr_body_root : Z
}.

Record BeaconBlockData : Type := {
  blk_slot : Z;
  blk_state_root : Z;
  blk_header : BeaconBlockHeader
}.

(** A beacon block handle; [None] is the nil block ([IsNil]). *)
Definition BeaconBlock : Type := option BeaconBlockData.

Definition GetHeader (blk : BeaconBlock) : option BeaconBlockHeader :=
  option_map blk_header blk.

Record BlobSidecar : Type := {
  sc_index : Z;
  sc_commitment : Z
}.

(** The decoded sidecars; [None] is the nil list ([IsNil]), and [Len] is
    the length of the list. *)
Definition BlobSidecars : Type := option (list BlobSidecar).

Record ProcessProposalRequest : Type := {
  Height : Z;
  Time : Z;
  ProposerAddress : list Z;
  Txs : list (list Z)
}.

Inductive ProposalStatus : Type :=
| PROCESS_PROPOSAL_STATUS_UNKNOWN
| PROCESS_PROPOSAL_STATUS_ACCEPT
| PROCESS_PROPOSAL_STATUS_REJECT.

Record ProcessProposalResponse : Type := { Status : ProposalStatus }.

(** [transition.Context] without its embedded [context.Context]. *)
Record TransitionContext : Type := {
  OptimisticEngine : bool;
  SkipPayloadVerification : bool;
  SkipValidateResult : bool;
  SkipValidateRandao : bool;
  TxProposerAddress : list Z;
  ConsensusTime : Z
}.

Record ExecutionPayloadHeader : Type := { GetTimestamp : Z }.

(** The collaborators of the service. [W] is everything reachable through
    the request context (the committed store and what hangs off it); [St]
    is the beacon state handle. A collaborator that can change the world
    returns the next one. *)
Record Collaborators (W St : Type) : Type := {
  ActiveForkVersionForSlot : Z -> nat;
  UnmarshalBeaconBlockFromABCIRequest :
    ProcessProposalRequest -> nat -> nat -> BeaconBlock * error;
  UnmarshalBlobSidecarsFromABCIRequest :
    ProcessProposalRequest -> nat -> BlobSidecars * error;
  VerifySidecars : list BlobSidecar -> option BeaconBlockHeader -> error;
  StateFromContext : W -> St;
  forceStartupHead : St -> W -> W;
  Copy : St -> W -> St * W;
  Transition : TransitionContext -> St -> BeaconBlock -> W -> error * W;
  GetLatestExecutionPayloadHeader : St -> W -> ExecutionPayloadHeader * error;
  Next : Z -> Z -> bool -> Z;
  localBuilderEnabled : bool
}.
Arguments ActiveForkVersionForSlot {W St} _ _.
Arguments UnmarshalBeaconBlockFromABCIRequest {W St} _ _ _ _.
Arguments UnmarshalBlobSidecarsFromABCIRequest {W St} _ _ _.
Arguments VerifySidecars {W St} _ _ _.
Arguments StateFromContext {W St} _ _.
Arguments forceStartupHead {W St} _ _ _.
Arguments Copy {W St} _ _ _.
Arguments Transition {W St} _ _ _ _ _.
Arguments GetLatestExecutionPayloadHeader {W St} _ _ _.
Arguments Next {W St} _ _ _ _.
Arguments localBuilderEnabled {W St} _.

(** The service's own mutable fields. *)
Record Service : Type := {
  optimisticPayloadBuilds : bool;
  (** whether [forceStartupSyncOnce] has fired *)
  startupSyncDone : bool
}.

(** What the service does besides returning: collaborator calls and the
    goroutines it launches, in program order. *)
Inductive Event (St : Type) : Type :=
| EvVerifySidecars (sidecars : list BlobSidecar)
                   (header : option BeaconBlockHeader)
| EvVerifyIncomingBlock (blk : BeaconBlock)
| EvForceStartupHead (st : St)
| EvCopy (st : St)
| EvTransition (tctx : TransitionContext) (st : St) (blk : BeaconBlock)
| EvReadPayloadHeader (st : St)
| EvGoRebuildPayload (st : St) (slotTime : Z)
| EvGoOptimisticBuild (st : St) (blk : BeaconBlock) (slotTime : Z).
Arguments EvVerifySidecars {St} _ _.
Arguments EvVerifyIncomingBlock {St} _.
Arguments EvForceStartupHead {St} _.
Arguments EvCopy {St} _.
Arguments EvTransition {St} _ _ _.
Arguments EvReadPayloadHeader {St} _.
Arguments EvGoRebuildPayload {St} _ _.
Arguments EvGoOptimisticBuild {St} _ _ _.

Definition is_verify_sidecars {St} (e : Event St) : bool :=
  match e with EvVerifySidecars _ _ => true | _ => false end.

Definition is_verify_incoming_block {St} (e : Event St) : bool :=
  match e with EvVerifyIncomingBlock _ => true | _ => false end.

Definition is_transition {St} (e : Event St) : bool :=
  match e with EvTransition _ _ _ => true | _ => false end.

Definition is_rebuild {St} (e : Event St) : bool :=
  match e with EvGoRebuildPayload _ _ => true | _ => false end.

(** [createProcessProposalResponse]. *)
Definition createProcessProposalResponse (e : error)
  : ProcessProposalResponse * error :=
  let status := PROCESS_PROPOSAL_STATUS_REJECT in
  if negb (IsFatal e) then
    ({| Status := PROCESS_PROPOSAL_STATUS_ACCEPT |}, None)
  else ({| Status := status |}, e).

(** [shouldBuildOptimisticPayloads]. *)
Definition shouldBuildOptimisticPayloads {W St} (d : Collaborators W St)
    (s : Service) : bool :=
  optimisticPayloadBuilds s && localBuilderEnabled d.

(** [verifyStateRoot]: the error, the next world and the events. *)
Definition verifyStateRoot {W St} (d : Collaborators W St)
    (st : St) (blk : BeaconBlock) (consensusTime : Z)
    (proposerAddress : list Z) (w : W) : error * W * list (Event St) :=
  let tctx := {| OptimisticEngine := false;
                 SkipPayloadVerification := false;
                 SkipValidateResult := false;
                 SkipValidateRandao := false;
                 TxProposerAddress := proposerAddress;
                 ConsensusTime := consensusTime |} in
  let '(e, w1) := Transition d tctx st blk w in
  let ev := [EvTransition tctx st blk] in
  if Is e ErrAcceptedPayloadStatus then (None, w1, ev) else (e, w1, ev).

(** What [VerifyIncomingBlock] leaves behind. *)
Record Outcome (W St : Type) : Type := {
  out_err : error;
  out_world : W;
  out_service : Service;
  out_events : list (Event St)
}.
Arguments out_err {W St} _.
Arguments out_world {W St} _.
Arguments out_service {W St} _.
Arguments out_events {W St} _.

(** [VerifyIncomingBlock]. In the rejection branch the assignment
    [lph, err = preState.GetLatestExecutionPayloadHeader()] overwrites the
    verification error, and the function returns the overwritten variable. *)
Definition VerifyIncomingBlock {W St} (d : Collaborators W St) (s : Service)
    (beaconBlk : BeaconBlock) (consensusTime : Z) (proposerAddress : list Z)
    (w : W) : Outcome W St :=
  let preState := StateFromContext d w in
  let '(w0, s0, ev0) :=
    if startupSyncDone s then (w, s, [])
    else (forceStartupHead d preState w,
          {| optimisticPayloadBuilds := optimisticPayloadBuilds s;
             startupSyncDone := true |},
          [EvForceStartupHead preState]) in
  match beaconBlk with
  | None =>
      {| out_err := Some (WrapNonFatal (Sentinel ErrNilBlk));
         out_world := w0; out_service := s0; out_events := ev0 |}
  | Some _ =>
      let '(postState, w1) := Copy d preState w0 in
      let '(e, w2, ev2) :=
        verifyStateRoot d postState beaconBlk consensusTime
                        proposerAddress w1 in
      let ev := ev0 ++ [EvCopy preState] ++ ev2 in
      match e with
      | Some e' =>
          if shouldBuildOptimisticPayloads d s0 then
            let '(lph, e1) := GetLatestExecutionPayloadHeader d preState w2 in
            match e1 with
            | Some _ =>
                {| out_err := e1; out_world := w2; out_service := s0;
                   out_events := ev ++ [EvReadPayloadHeader preState] |}
            | None =>
                {| out_err := e1; out_world := w2; out_service := s0;
                   out_events :=
                     ev ++ [EvReadPayloadHeader preState;
                            EvGoRebuildPayload preState
                              (Next d consensusTime (GetTimestamp lph) true)] |}
            end
          else
            {| out_err := Some e'; out_world := w2; out_service := s0;
               out_events := ev |}
      | None =>
          if shouldBuildOptimisticPayloads d s0 then
            let '(lph, e1) := GetLatestExecutionPayloadHeader d postState w2 in
            match e1 with
            | Some _ =>
                {| out_err := e1; out_world := w2; out_service := s0;
                   out_events := ev ++ [EvReadPayloadHeader postState] |}
            | None =>
                {| out_err := None; out_world := w2; out_service := s0;
                   out_events :=
                     ev ++ [EvReadPayloadHeader postState;
                            EvGoOptimisticBuild postState beaconBlk
                              (Next d consensusTime (GetTimestamp lph) true)] |}
            end
          else
            {| out_err := None; out_world := w2; out_service := s0;
               out_events := ev |}
      end
  end.

(** The world in which [VerifyIncomingBlock] copies the state: the one it
    was called in, after the startup synchronisation if that still had to
    run. *)
Definition world_at_copy {W St} (d : Collaborators W St) (s : Service)
    (w : W) : W :=
  if startupSyncDone s then w
  else forceStartupHead d (StateFromContext d w) w.

(** What [ProcessProposal] leaves behind. *)
Record ProposalOutcome (W St : Type) : Type := {
  pp_response : ProcessProposalResponse;
  pp_err : error;
  pp_world : W;
  pp_service : Service;
  pp_events : list (Event St)
}.
Arguments pp_response {W St} _.
Arguments pp_err {W St} _.
Arguments pp_world {W St} _.
Arguments pp_service {W St} _.
Arguments pp_events {W St} _.

Definition respond {W St} (e : error) (w : W) (s : Service)
    (ev : list (Event St)) : ProposalOutcome W St :=
  let '(resp, e') := createProcessProposalResponse e in
  {| pp_response := resp; pp_err := e'; pp_world := w; pp_service := s;
     pp_events := ev |}.

(** [ProcessProposal]. *)
Definition ProcessProposal {W St} (d : Collaborators W St) (s : Service)
    (req : ProcessProposalRequest) (w : W) : ProposalOutcome W St :=
  let '(blk, e) :=
    UnmarshalBeaconBlockFromABCIRequest d req BeaconBlockTxIndex
      (ActiveForkVersionForSlot d (Height req)) in
  match e with
  | Some e' => respond (Some (WrapNonFatal e')) w s []
  | None =>
      let '(sidecars, e) :=
        UnmarshalBlobSidecarsFromABCIRequest d req BlobSidecarsTxIndex in
      match e with
      | Some e' => respond (Some (WrapNonFatal e')) w s []
      | None =>
          let blobs :=
            match sidecars with
            | Some l =>
                if Nat.ltb 0 (List.length l) then
                  (VerifySidecars d l (GetHeader blk),
                   [EvVerifySidecars l (GetHeader blk)])
                else (None, [])
            | None => (None, [])
            end in
          match fst blobs with
          | Some e' => respond (Some (WrapNonFatal e')) w s (snd blobs)
          | None =>
              let r :=
                VerifyIncomingBlock d s blk (Time req) (ProposerAddress req) w in
              let ev := snd blobs ++ [EvVerifyIncomingBlock blk] ++ out_events r in
              match out_err r with
              | Some e' =>
                  respond (Some (WrapNonFatal e')) (out_world r)
                          (out_service r) ev
              | None => respond None (out_world r) (out_service r) ev
              end
          end
      end
  end.

End Blockchain.

(* ===================================================================== *)
(** ** Concrete inputs *)
(* ===================================================================== *)

Module Samples.
Import Errors Engine.

Definition fcu_request : ForkchoiceUpdateRequest :=
  {| State := {| HeadBlockHash := 30%Z; SafeBlockHash := 20%Z;
                 FinalizedBlockHash := 10%Z |};
     Attributes := None;
     ForkVersion := 4 |}.

Definition payload : ExecutionPayload :=
  {| BlockHash := 31%Z; ParentHash := 30%Z |}.

Definition payload_request (skip optimistic : bool) : NewPayloadRequest :=
  {| Payload := payload; VersionedHashes := []; ParentBeaconBlockRoot := None;
     SkipIfExists := skip; Optimistic := optimistic; HashesCheck := None |}.

(** The reply of a client that does not have the block. *)
Definition unknown_block_reply : Reply :=
  {| reply_payloadID := None; reply_hash := None; reply_header := None;
     reply_err := Some (Sentinel (ErrOther 404)) |}.

(** A client that answers every forkchoice update with [INVALID]. *)
Definition always_invalid : EngineClient unit :=
  {| ForkchoiceUpdated := fun s _ _ _ =>
       (None, None, Some (Sentinel ErrInvalidPayloadStatus), s);
     HeaderByHash := fun s _ => (None, None, s);
     NewPayload := fun s _ _ _ => (None, None, s) |}.

End Samples.

Module ServiceSamples.
Import Errors Blockchain.

(** What a scripted set of collaborators answers. *)
Record Script : Type := {
  decoded_block : BeaconBlock * error;
  decoded_sidecars : BlobSidecars * error;
  sidecars_verdict : error;
  transition_verdict : error;
  header_read : ExecutionPayloadHeader * error;
  builder_enabled : bool
}.

(** Scripted collaborators. The world is the log of slots the state
    processor has written, newest first; a state handle is the number of
    copies between it and the committed state. *)
Definition scripted (k : Script) : Collaborators (list Z) nat :=
  {| ActiveForkVersionForSlot := fun _ => 4;
     UnmarshalBeaconBlockFromABCIRequest := fun _ _ _ => decoded_block k;
     UnmarshalBlobSidecarsFromABCIRequest := fun _ _ => decoded_sidecars k;
     VerifySidecars := fun _ _ => sidecars_verdict k;
     StateFromContext := fun _ => 0;
     forceStartupHead := fun _ w => w;
     Copy := fun st w => (S st, w);
     Transition := fun _ _ blk w =>
       (transition_verdict k,
        match blk with Some b => blk_slot b :: w | None => w end);
     GetLatestExecutionPayloadHeader := fun _ _ => header_read k;
     Next := fun t _ _ => (t + 1)%Z;
     localBuilderEnabled := builder_enabled k |}.

Definition block_data : BeaconBlockData :=
  {| blk_slot := 1; blk_state_root := 77;
     blk_header := {| hdr_slot := 1; hdr_body_root := 5 |} |}.

Definition block : BeaconBlock := Some block_data.

Definition sidecar : BlobSidecar := {| sc_index := 0; sc_commitment := 99 |}.

Definition request : ProcessProposalRequest :=
  {| Height := 1; Time := 1000; ProposerAddress := [1; 2; 3]%Z;
     Txs := [[1]; [2]]%Z |}.

Definition service : Service :=
  {| optimisticPayloadBuilds := true; startupSyncDone := true |}.

Definition healthy : Script :=
  {| decoded_block := (block, None);
     decoded_sidecars := (Some [sidecar], None);
     sidecars_verdict := None;
     transition_verdict := None;
     header_read := ({| GetTimestamp := 990 |}, None);
     builder_enabled := true |}.

(** The block does not decode. *)
Definition undecodable : Script :=
  {| decoded_block := (None, Some (Sentinel (ErrOther 1)));
     decoded_sidecars := decoded_sidecars healthy;
     sidecars_verdict := None;
     transition_verdict := None;
     header_read := header_read healthy;
     builder_enabled := true |}.

(** The sidecars do not match the block. *)
Definition bad_blobs : Script :=
  {| decoded_block := (block, None);
     decoded_sidecars := decoded_sidecars healthy;
     sidecars_verdict := Some (Sentinel (ErrOther 2));
     transition_verdict := None;
     header_read := header_read healthy;
     builder_enabled := true |}.

(** The state transition rejects the block with [e]; reading the payload
    header afterwards gives [hdr]. *)
Definition rejecting (e : err) (hdr : ExecutionPayloadHeader * error)
  : Script :=
  {| decoded_block := (block, None);
     decoded_sidecars := (None, None);
     sidecars_verdict := None;
     transition_verdict := Some e;
     header_read := hdr;
     builder_enabled := true |}.

End ServiceSamples.

Module StoreSamples.
Import StateDB.

(** A committed store holding slot 1. *)
Definition committed : Heap :=
  [{| parent := None; dirty := {[ "slot"%string := Some "1"%string ]} |}].

(** The handle on the committed store. *)
Definition state : StateDB := WithContext New 0.

(** The branch of [state], and the heap once the branch exists. *)
Definition branch : StateDB := {| ctx := Some 1; write := Some 1 |}.

Definition branched : Heap :=
  committed ++ [{| parent := Some 0; dirty := ∅ |}].

Definition slot_write : list WriteOp := [SetKey "slot" "2"].

Definition sum_lengths (vs : list (option string)) : Z :=
  Z.of_nat (List.length (omap id vs)).

End StoreSamples.

(* ===================================================================== *)
(** ** Observations on runs *)
(* ===================================================================== *)

Module Observe.
Import Errors Engine Blockchain StateDB.

(** The forkchoice state a call carried, for forkchoice updates. *)
Definition sent_state (c : Call) : option ForkchoiceState :=
  match c with
  | CallForkchoiceUpdated st _ => Some st
  | _ => None
  end.


Definition is_force_startup {St} (e : Event St) : bool :=
  match e with EvForceStartupHead _ => true | _ => false end.

Definition is_copy {St} (e : Event St) : bool :=
  match e with EvCopy _ => true | _ => false end.

Definition is_read_header {St} (e : Event St) : bool :=
  match e with EvReadPayloadHeader _ => true | _ => false end.

Definition is_optimistic_build {St} (e : Event St) : bool :=
  match e with EvGoOptimisticBuild _ _ _ => true | _ => false end.

(** The goroutines the service launches. *)
Definition is_goroutine {St} (e : Event St) : bool :=
  is_rebuild e || is_optimistic_build e.

(** What a write does to key [k]: [Some ov] when it sets or deletes [k]. *)
Definition write_to (k : string) (op : WriteOp) : option (option string) :=
  match op with
  | SetKey k' v => if String.eqb k' k then Some (Some v) else None
  | DeleteKey k' => if String.eqb k' k then Some None else None
  end.

(** The effect on [k] of the last write to [k] in [ops], if there is one. *)
Fixpoint last_write (k : string) (ops : list WriteOp)
  : option (option string) :=
  match ops with
  | [] => None
  | op :: rest =>
      match last_write k rest with
      | Some r => Some r
      | None => write_to k op
      end
  end.

End Observe.

Module MoreSamples.
Import Errors Engine Blockchain StateDB.

(** INVALID on the first forkchoice update, VALID on the retry. *)
Definition one_retry : list Reply :=
  [status_reply ErrInvalidPayloadStatus; valid_reply].

(** A request whose local hash check fails. *)
Definition bad_hashes : NewPayloadRequest :=
  {| Payload := Samples.payload; VersionedHashes := [];
     ParentBeaconBlockRoot := None; SkipIfExists := false;
     Optimistic := false; HashesCheck := Some (Sentinel (ErrOther 3)) |}.

(** A service that builds no optimistic payloads and has not synchronised
    its startup head yet. *)
Definition quiet_service : Service :=
  {| optimisticPayloadBuilds := false; startupSyncDone := false |}.

Definition set_then_delete : list WriteOp :=
  [SetKey "slot" "2"; SetKey "root" "ab"; DeleteKey "slot"].

End MoreSamples.

(* ===================================================================== *)
(** ** Properties of the execution engine adapter *)
(* ===================================================================== *)

Section EngineFacts.
Import Errors Engine.

Context {C : Type} (ec : EngineClient C).

Lemma sentinel_eqb_refl (s : sentinel) : sentinel_eqb s s = true.
Proof. destruct s; simpl; auto using Nat.eqb_refl. Qed.

Lemma sentinel_eqb_eq (a b : sentinel) : sentinel_eqb a b = true <-> a = b.
Proof.
  split.
  - destruct a, b; simpl; try discriminate; try reflexivity.
    intros H. apply Nat.eqb_eq in H. now subst.
  - intros ->. apply sentinel_eqb_refl.
Qed.

(** With the hashes valid and [SkipIfExists] set, the adapter returns nil
    after the header lookup whatever the lookup replied, and never submits
    the payload. *)
Lemma VerifyAndNotifyNewPayload_skip (s : C) (req : NewPayloadRequest) :
  HashesCheck req = None ->
  SkipIfExists req = true ->
  exists s' e,
    VerifyAndNotifyNewPayload ec s req =
      (None, s', [CallHeaderByHash (BlockHash (Payload req)) e]).
Proof.
  intros Hh Hs. unfold VerifyAndNotifyNewPayload. rewrite Hh, Hs.
  destruct (HeaderByHash ec s (BlockHash (Payload req))) as [[hd e] s'].
  now exists s', e.
Qed.

(** Unfolding of one level of [NotifyForkchoiceUpdate]. *)
Lemma NotifyForkchoiceUpdate_step (fuel : nat) (s : C)
    (req : ForkchoiceUpdateRequest) pid lvh e s1 :
  ForkchoiceUpdated ec s (State req) (Attributes req) (ForkVersion req)
    = (pid, lvh, e, s1) ->
  NotifyForkchoiceUpdate (S fuel) ec s req =
    let call := CallForkchoiceUpdated (State req) e in
    if is_optimistic_status e then
      Some {| fcu_payloadID := pid; fcu_latestValidHash := None;
              fcu_err := None; fcu_req := req; fcu_client := s1;
              fcu_calls := [call] |}
    else if is_invalid_status e then
      match NotifyForkchoiceUpdate fuel ec s1 (set_head_to_safe req) with
      | None => None
      | Some r =>
          match fcu_err r with
          | Some e' =>
              Some {| fcu_payloadID := None; fcu_latestValidHash := None;
                      fcu_err := Some e'; fcu_req := fcu_req r;
                      fcu_client := fcu_client r;
                      fcu_calls := call :: fcu_calls r |}
          | None =>
              Some {| fcu_payloadID := fcu_payloadID r;
                      fcu_latestValidHash := fcu_latestValidHash r;
                      fcu_err := Some (Sentinel ErrBadBlockProduced);
                      fcu_req := fcu_req r;
                      fcu_client := fcu_client r;
                      fcu_calls := call :: fcu_calls r |}
          end
      end
    else
      match e with
      | Some e' =>
          Some {| fcu_payloadID := None; fcu_latestValidHash := None;
                  fcu_err := Some e'; fcu_req := req; fcu_client := s1;
                  fcu_calls := [call] |}
      | None =>
          Some {| fcu_payloadID := pid; fcu_latestValidHash := lvh;
                  fcu_err := None; fcu_req := req; fcu_client := s1;
                  fcu_calls := [call] |}
      end.
Proof. intros H. simpl. rewrite H. reflexivity. Qed.

(** Every call recorded by [NotifyForkchoiceUpdate] is a forkchoice
    update. *)
Lemma NotifyForkchoiceUpdate_calls (fuel : nat) :
  forall (s : C) req r,
    NotifyForkchoiceUpdate fuel ec s req = Some r ->
    List.filter is_forkchoice_call (fcu_calls r) = fcu_calls r.
Proof.
  induction fuel as [|fuel IH]; intros s req r H; [discriminate|].
  destruct (ForkchoiceUpdated ec s (State req) (Attributes req)
              (ForkVersion req)) as [[[pid lvh] e] s1] eqn:Hfc.
  rewrite (NotifyForkchoiceUpdate_step _ _ _ _ _ _ _ Hfc) in H.
  cbv zeta in H.
  destruct (is_optimistic_status e).
  { injection H as <-. reflexivity. }
  destruct (is_invalid_status e).
  - destruct (NotifyForkchoiceUpdate fuel ec s1 (set_head_to_safe req))
      as [r'|] eqn:Hrec; [|discriminate].
    specialize (IH _ _ _ Hrec).
    destruct (fcu_err r'); injection H as <-; simpl; now rewrite IH.
  - destruct e; injection H as <-; reflexivity.
Qed.

End EngineFacts.

Section EngineClaims.
Import Errors Engine Samples.

Context {C : Type} (ec : EngineClient C).

(** C2 (the code at the claim's input). A request with [SkipIfExists] set
    is sent to a client that does not have the block: the header lookup
    fails, yet [VerifyAndNotifyNewPayload] returns nil and [NewPayload] is
    never called, although a reply for it was waiting. *)
Theorem VerifyAndNotifyNewPayload_skips_unknown_block :
  VerifyAndNotifyNewPayload scripted
      [unknown_block_reply; status_reply ErrInvalidPayloadStatus]
      (payload_request true false)
  = (None, [status_reply ErrInvalidPayloadStatus],
     [CallHeaderByHash 31%Z (Some (Sentinel (ErrOther 404)))])
  /\ List.filter is_new_payload_call
       (snd (VerifyAndNotifyNewPayload scripted
               [unknown_block_reply; status_reply ErrInvalidPayloadStatus]
               (payload_request true false))) = [].
Proof. split; reflexivity. Qed.

(** C3 (counterexample). Against a client that replies INVALID twice and
    then VALID, one call to [NotifyForkchoiceUpdate] returns after three
    forkchoice updates: the second INVALID reply triggered a second
    retry. *)
Lemma NotifyForkchoiceUpdate_second_invalid_recurses :
  exists r,
    NotifyForkchoiceUpdate 3 scripted
      [status_reply ErrInvalidPayloadStatus;
       status_reply ErrInvalidPayloadStatus; valid_reply] fcu_request
    = Some r
    /\ retries (fcu_calls r) = 2
    /\ ~ retries (fcu_calls r) <= 1.
Proof.
  eexists. split; [reflexivity|]. split; [reflexivity|].
  vm_compute. lia.
Qed.

(** C3 (amended). [NotifyForkchoiceUpdate] retries once per INVALID or
    INVALID_BLOCK_HASH reply, without a bound: against a client whose first
    [n] replies trigger a retry and whose next reply does not, it returns
    (given the recursion depth [n + 1]) after exactly [n + 1] forkchoice
    updates, that is [n] retries, all but the first sent with head = safe,
    leaving the rest of the client's script untouched. *)
Theorem NotifyForkchoiceUpdate_retries_once_per_invalid
    (invalid : list Reply) (last : Reply) (rest : list Reply)
    (fuel : nat) (req : ForkchoiceUpdateRequest) :
  Forall (fun r => triggers_retry (reply_err r) = true) invalid ->
  triggers_retry (reply_err last) = false ->
  List.length invalid < fuel ->
  exists r,
    NotifyForkchoiceUpdate fuel scripted (invalid ++ last :: rest) req = Some r
    /\ List.length (fcu_calls r) = S (List.length invalid)
    /\ retries (fcu_calls r) = List.length invalid
    /\ fcu_client r = rest
    /\ fcu_req r = match invalid with
                    | [] => req
                    | _ :: _ => set_head_to_safe req
                    end.
Proof.
  intros Hinv Hlast. revert fuel req.
  induction Hinv as [|r0 invalid Hr0 Hinv IH]; intros fuel req Hfuel.
  - destruct fuel as [|fuel]; [simpl in Hfuel; lia|].
    simpl app.
    rewrite (NotifyForkchoiceUpdate_step scripted fuel (last :: rest) req
               (reply_payloadID last) (reply_hash last) (reply_err last) rest
               eq_refl).
    cbv zeta. unfold triggers_retry in Hlast.
    destruct (is_optimistic_status (reply_err last)).
    { eexists. split; [reflexivity|]. repeat split. }
    simpl in Hlast. rewrite Hlast.
    destruct (reply_err last); eexists; (split; [reflexivity|]);
      repeat split.
  - destruct fuel as [|fuel]; [simpl in Hfuel; lia|].
    simpl in Hfuel.
    destruct (IH fuel (set_head_to_safe req) ltac:(lia))
      as (r & Hrun & Hlen & Hret & Hcl & Hreq).
    simpl app.
    rewrite (NotifyForkchoiceUpdate_step scripted fuel
               (r0 :: invalid ++ last :: rest) req
               (reply_payloadID r0) (reply_hash r0) (reply_err r0)
               (invalid ++ last :: rest) eq_refl).
    cbv zeta. unfold triggers_retry in Hr0.
    apply andb_true_iff in Hr0 as [Hopt Hiv].
    apply negb_true_iff in Hopt. rewrite Hopt, Hiv, Hrun.
    pose proof (NotifyForkchoiceUpdate_calls scripted _ _ _ _ Hrun) as Hall.
    assert (Hreq' : fcu_req r = set_head_to_safe req).
    { rewrite Hreq. destruct invalid; [reflexivity|].
      destruct req as [[hd sf fn] at' fv]; reflexivity. }
    destruct (fcu_err r); eexists; (split; [reflexivity|]); simpl;
      unfold retries; simpl; rewrite Hall, Hlen; repeat split;
      try lia; assumption.
Qed.

(** A client that replies INVALID for ever: no recursion depth lets
    [NotifyForkchoiceUpdate] return. *)
Lemma NotifyForkchoiceUpdate_always_invalid_diverges (fuel : nat)
    (req : ForkchoiceUpdateRequest) :
  NotifyForkchoiceUpdate fuel always_invalid tt req = None.
Proof.
  revert req. induction fuel as [|fuel IH]; intros req; [reflexivity|].
  rewrite (NotifyForkchoiceUpdate_step always_invalid fuel tt req None None
             (Some (Sentinel ErrInvalidPayloadStatus)) tt eq_refl).
  cbv zeta. change (is_optimistic_status _) with false.
  change (is_invalid_status _) with true. cbv iota. now rewrite IH.
Qed.


End EngineClaims.

(* ===================================================================== *)
(** ** Properties of the blockchain service *)
(* ===================================================================== *)

Section ServiceFacts.
Import Errors Blockchain.

Context {W St : Type} (d : Collaborators W St).

Lemma IsFatal_WrapNonFatal (e : err) : IsFatal (Some (WrapNonFatal e)) = false.
Proof. reflexivity. Qed.

(** Whatever is not fatal, nil included, is answered with ACCEPT and a nil
    error. *)
Lemma createProcessProposalResponse_not_fatal (e : error) :
  IsFatal e = false ->
  createProcessProposalResponse e
    = ({| Status := PROCESS_PROPOSAL_STATUS_ACCEPT |}, None).
Proof. intros H. unfold createProcessProposalResponse. now rewrite H. Qed.

Lemma createProcessProposalResponse_fatal (e : error) :
  IsFatal e = true ->
  createProcessProposalResponse e
    = ({| Status := PROCESS_PROPOSAL_STATUS_REJECT |}, e).
Proof. intros H. unfold createProcessProposalResponse. now rewrite H. Qed.

Lemma respond_WrapNonFatal (e : err) (w : W) (s : Service)
    (ev : list (Event St)) :
  respond (Some (WrapNonFatal e)) w s ev =
    {| pp_response := {| Status := PROCESS_PROPOSAL_STATUS_ACCEPT |};
       pp_err := None; pp_world := w; pp_service := s; pp_events := ev |}.
Proof. reflexivity. Qed.

(** Every error reaches [createProcessProposalResponse] wrapped as
    non-fatal, so the handler answers ACCEPT on every path. *)
Lemma ProcessProposal_always_accepts (s : Service)
    (req : ProcessProposalRequest) (w : W) :
  Status (pp_response (ProcessProposal d s req w))
    = PROCESS_PROPOSAL_STATUS_ACCEPT
  /\ pp_err (ProcessProposal d s req w) = None.
Proof.
  unfold ProcessProposal.
  destruct (UnmarshalBeaconBlockFromABCIRequest d req BeaconBlockTxIndex _)
    as [blk [e|]]; [now split|].
  destruct (UnmarshalBlobSidecarsFromABCIRequest d req BlobSidecarsTxIndex)
    as [sidecars [e|]]; [now split|].
  match goal with |- context [fst ?b] => destruct (fst b) end; [now split|].
  destruct (out_err _); now split.
Qed.

(** The events of [verifyStateRoot]: one call of the state processor. *)
Lemma verifyStateRoot_events (st : St) (blk : BeaconBlock) (t : Z)
    (addr : list Z) (w : W) :
  exists tctx, snd (verifyStateRoot d st blk t addr w)
               = [EvTransition tctx st blk].
Proof.
  unfold verifyStateRoot. destruct (Transition d _ st blk w) as [e w1].
  destruct (Is e ErrAcceptedPayloadStatus); eexists; reflexivity.
Qed.

(** [VerifyIncomingBlock] does not call the blob processor. *)
Lemma VerifyIncomingBlock_no_sidecars (s : Service) (blk : BeaconBlock)
    (t : Z) (addr : list Z) (w : W) :
  existsb is_verify_sidecars
    (out_events (VerifyIncomingBlock d s blk t addr w)) = false.
Proof.
  unfold VerifyIncomingBlock.
  destruct (startupSyncDone s); destruct blk as [b|]; try reflexivity.
  all: destruct (Copy d _ _) as [post w1].
  all: destruct (verifyStateRoot_events post (Some b) t addr w1) as [tctx Hev].
  all: destruct (verifyStateRoot d post (Some b) t addr w1) as [[e w2] ev2].
  all: simpl in Hev; subst ev2.
  all: destruct e; destruct (shouldBuildOptimisticPayloads d _);
    try reflexivity.
  all: destruct (GetLatestExecutionPayloadHeader d _ w2) as [lph [e1|]];
    reflexivity.
Qed.

(** The state processor is called by [VerifyIncomingBlock] on the copy of
    the pre-state, with every verification switched on. *)
Lemma VerifyIncomingBlock_transition_event (s : Service)
    (b : BeaconBlockData) (t : Z) (addr : list Z) (w : W) tctx st blk :
  In (EvTransition tctx st blk)
     (out_events (VerifyIncomingBlock d s (Some b) t addr w)) ->
  st = fst (Copy d (StateFromContext d w) (world_at_copy d s w))
  /\ tctx = {| OptimisticEngine := false; SkipPayloadVerification := false;
               SkipValidateResult := false; SkipValidateRandao := false;
               TxProposerAddress := addr; ConsensusTime := t |}
  /\ blk = Some b.
Proof.
  unfold VerifyIncomingBlock, world_at_copy.
  set (pre := StateFromContext d w).
  destruct (startupSyncDone s).
  all: destruct (Copy d pre _) as [post w2]; simpl fst.
  all: unfold verifyStateRoot.
  all: destruct (Transition d _ post (Some b) w2) as [e2 w3].
  all: destruct (Is e2 ErrAcceptedPayloadStatus);
    [|destruct e2];
    destruct (shouldBuildOptimisticPayloads d _);
    try destruct (GetLatestExecutionPayloadHeader d _ w3)
      as [lph [e1|]];
    simpl; intros Hin;
    repeat (destruct Hin as [Hin|Hin]; try discriminate Hin);
    try contradiction;
    injection Hin as <- <- <-; repeat split.
Qed.

End ServiceFacts.

Section ServiceClaims.
Import Errors Blockchain.

Context {W St : Type} (d : Collaborators W St).

(** C1 (the code at the claim's input). A proposal whose block does not
    decode makes [ProcessProposal] wrap the decoding error as non-fatal and
    answer with status ACCEPT and a nil error, not with REJECT; the same
    happens when the blob processor rejects the sidecars. *)
Theorem ProcessProposal_accepts_undecodable_block :
  (let r := ProcessProposal (ServiceSamples.scripted ServiceSamples.undecodable)
              ServiceSamples.service ServiceSamples.request [] in
   pp_response r = {| Status := PROCESS_PROPOSAL_STATUS_ACCEPT |}
   /\ pp_err r = None)
  /\ (let r := ProcessProposal (ServiceSamples.scripted ServiceSamples.bad_blobs)
                 ServiceSamples.service ServiceSamples.request [] in
      pp_response r = {| Status := PROCESS_PROPOSAL_STATUS_ACCEPT |}
      /\ pp_err r = None).
Proof. repeat split. Qed.

(** C4. [verifyStateRoot] calls the state processor once, on the state it
    was given, with [OptimisticEngine], [SkipPayloadVerification],
    [SkipValidateResult] and [SkipValidateRandao] all false; it returns nil
    exactly when the transition returned nil or an error that is
    [ErrAcceptedPayloadStatus], and returns every other error unchanged.
    The state [VerifyIncomingBlock] hands to it is the copy of the
    pre-state. *)
Theorem verifyStateRoot_swallows_only_accepted (st : St) (blk : BeaconBlock)
    (t : Z) (addr : list Z) (w : W) (res : error) (w' : W)
    (ev : list (Event St)) :
  verifyStateRoot d st blk t addr w = (res, w', ev) ->
  exists tctx,
    ev = [EvTransition tctx st blk]
    /\ OptimisticEngine tctx = false
    /\ SkipPayloadVerification tctx = false
    /\ SkipValidateResult tctx = false
    /\ SkipValidateRandao tctx = false
    /\ TxProposerAddress tctx = addr
    /\ ConsensusTime tctx = t
    /\ w' = snd (Transition d tctx st blk w)
    /\ (res = None <->
        fst (Transition d tctx st blk w) = None
        \/ Is (fst (Transition d tctx st blk w)) ErrAcceptedPayloadStatus = true)
    /\ (Is (fst (Transition d tctx st blk w)) ErrAcceptedPayloadStatus = false ->
        res = fst (Transition d tctx st blk w))
    /\ (forall (s : Service) (b : BeaconBlockData) tctx' st' blk',
          In (EvTransition tctx' st' blk')
             (out_events (VerifyIncomingBlock d s (Some b) t addr w)) ->
          st' = fst (Copy d (StateFromContext d w) (world_at_copy d s w))
          /\ tctx' = tctx /\ blk' = Some b).
Proof.
  unfold verifyStateRoot. intros Hrun.
  eexists. split.
  - destruct (Transition d _ st blk w) as [e w1].
    destruct (Is e ErrAcceptedPayloadStatus); now injection Hrun as <- <- <-.
  - destruct (Transition d _ st blk w) as [e w1] eqn:Htr. simpl.
    do 6 (split; [reflexivity|]).
    split; [|split; [|split]].
    + destruct (Is e ErrAcceptedPayloadStatus); now injection Hrun as <- <- <-.
    + destruct (Is e ErrAcceptedPayloadStatus) eqn:Hacc;
        injection Hrun as <- <- <-.
      * split; auto.
      * split; [now left|]. intros [He|He]; [assumption|discriminate].
    + intros Hacc. rewrite Hacc in Hrun. now injection Hrun as <- <- <-.
    + intros s b tctx' st' blk' Hin.
      apply VerifyIncomingBlock_transition_event in Hin.
      destruct Hin as (-> & -> & ->). repeat split.
Qed.

(** C7. With block and sidecars decoded, [ProcessProposal] calls the blob
    processor's [VerifySidecars] if and only if the sidecar list is non-nil
    and non-empty; and when [VerifySidecars] fails, that call is all the
    handler does: [VerifyIncomingBlock] and the state transition do not
    run, and the world, the committed state in it, is the one it was
    called in. *)
Theorem ProcessProposal_sidecars_gate (s : Service)
    (req : ProcessProposalRequest) (w : W) (blk : BeaconBlock)
    (sidecars : BlobSidecars) :
  UnmarshalBeaconBlockFromABCIRequest d req BeaconBlockTxIndex
    (ActiveForkVersionForSlot d (Height req)) = (blk, None) ->
  UnmarshalBlobSidecarsFromABCIRequest d req BlobSidecarsTxIndex
    = (sidecars, None) ->
  let r := ProcessProposal d s req w in
  (existsb is_verify_sidecars (pp_events r) = true <->
     exists l, sidecars = Some l /\ 0 < List.length l)
  /\ (forall l e,
        sidecars = Some l -> 0 < List.length l ->
        VerifySidecars d l (GetHeader blk) = Some e ->
        pp_events r = [EvVerifySidecars l (GetHeader blk)]
        /\ existsb is_verify_incoming_block (pp_events r) = false
        /\ existsb is_transition (pp_events r) = false
        /\ pp_world r = w
        /\ pp_service r = s).
Proof.
  intros Hblk Hsc r. subst r. unfold ProcessProposal.
  rewrite Hblk, Hsc. split.
  - destruct sidecars as [l|].
    + destruct (Nat.ltb 0 (List.length l)) eqn:Hlen.
      * apply Nat.ltb_lt in Hlen. simpl fst; simpl snd.
        split; [intros _; now exists l|intros _].
        destruct (VerifySidecars d l (GetHeader blk)); [reflexivity|].
        destruct (out_err _); reflexivity.
      * apply Nat.ltb_ge in Hlen. simpl fst; simpl snd. cbv iota.
        split.
        -- intros H. exfalso.
           assert (Hno : existsb is_verify_sidecars
                     (out_events (VerifyIncomingBlock d s blk (Time req)
                                    (ProposerAddress req) w)) = false)
             by apply VerifyIncomingBlock_no_sidecars.
           destruct (out_err _); simpl in H; rewrite Hno in H;
             discriminate.
        -- intros (l' & Hl' & Hpos). injection Hl' as <-. lia.
    + simpl fst; simpl snd. cbv iota. split.
      * intros H. exfalso.
        assert (Hno : existsb is_verify_sidecars
                  (out_events (VerifyIncomingBlock d s blk (Time req)
                                 (ProposerAddress req) w)) = false)
          by apply VerifyIncomingBlock_no_sidecars.
        destruct (out_err _); simpl in H; rewrite Hno in H; discriminate.
      * intros (l' & Hl' & _). discriminate.
  - intros l e -> Hpos Hver. apply Nat.ltb_lt in Hpos.
    rewrite Hpos. simpl fst. rewrite Hver. repeat split.
Qed.

(** C9. When [verifyStateRoot] rejects the block, optimistic payload
    builds are enabled and reading the latest execution payload header from
    the pre-state fails, [VerifyIncomingBlock] returns the error of that
    read, whatever the verification error was, and launches no rebuild. *)
Theorem VerifyIncomingBlock_header_error_replaces_rejection (s : Service)
    (b : BeaconBlockData) (t : Z) (addr : list Z) (w : W)
    (post : St) (w1 w2 : W) (e : err) (ev : list (Event St))
    (lph : ExecutionPayloadHeader) (e1 : err) :
  Copy d (StateFromContext d w) (world_at_copy d s w) = (post, w1) ->
  verifyStateRoot d post (Some b) t addr w1 = (Some e, w2, ev) ->
  shouldBuildOptimisticPayloads d s = true ->
  GetLatestExecutionPayloadHeader d (StateFromContext d w) w2
    = (lph, Some e1) ->
  let r := VerifyIncomingBlock d s (Some b) t addr w in
  out_err r = Some e1
  /\ existsb is_rebuild (out_events r) = false
  /\ out_world r = w2.
Proof.
  intros Hcopy Hver Hbuild Hread r. subst r.
  destruct (verifyStateRoot_events d post (Some b) t addr w1) as [tctx Hev].
  rewrite Hver in Hev. simpl in Hev. subst ev.
  unfold VerifyIncomingBlock. unfold world_at_copy in Hcopy.
  unfold shouldBuildOptimisticPayloads in *.
  destruct (startupSyncDone s); rewrite Hcopy, Hver; simpl;
    rewrite Hbuild, Hread; repeat split.
Qed.

(** The same overwrite when the header read succeeds: the verification
    error is replaced by nil, so a block the state processor rejected as
    INVALID is reported as verified while the rebuild is launched. *)
Lemma VerifyIncomingBlock_rejection_lost_when_header_is_read :
  let r := VerifyIncomingBlock
             (ServiceSamples.scripted
                (ServiceSamples.rejecting (Sentinel ErrInvalidPayloadStatus)
                   ({| GetTimestamp := 990 |}, None)))
             ServiceSamples.service ServiceSamples.block 1000 [1; 2; 3]%Z [] in
  out_err r = None /\ existsb is_rebuild (out_events r) = true.
Proof. split; reflexivity. Qed.

End ServiceClaims.

(* ===================================================================== *)
(** ** Properties of the state store *)
(* ===================================================================== *)

Section StoreFacts.
Import StateDB.

Implicit Types (h : Heap) (l : Layer) (k : string).

Lemma read_S f h c k :
  read (S f) h c k =
    match h !! c with
    | None => None
    | Some l =>
        match dirty l !! k with
        | Some ov => ov
        | None =>
            match parent l with
            | Some p => read f h p k
            | None => None
            end
        end
    end.
Proof. reflexivity. Qed.

(** Reading needs no more fuel than the depth of the layer. *)
Lemma read_fuel h k : wf h ->
  forall f1 f2 c, c < f1 -> c < f2 -> read f1 h c k = read f2 h c k.
Proof.
  intros Hwf. induction f1 as [|f1 IH]; intros f2 c H1 H2; [lia|].
  destruct f2 as [|f2]; [lia|]. simpl.
  destruct (h !! c) as [l|] eqn:Hl; [|reflexivity].
  destruct (dirty l !! k); [reflexivity|].
  destruct (parent l) as [p|] eqn:Hp; [|reflexivity].
  pose proof (Hwf c l p Hl Hp). apply IH; lia.
Qed.

(** Reading through [c] looks at the layers up to [c] only. *)
Lemma read_agree h h' k : wf h ->
  forall f c, (forall i, i <= c -> h !! i = h' !! i) ->
              read f h c k = read f h' c k.
Proof.
  intros Hwf. induction f as [|f IH]; intros c Hagree; [reflexivity|].
  simpl. rewrite <- (Hagree c (Nat.le_refl c)).
  destruct (h !! c) as [l|] eqn:Hl; [|reflexivity].
  destruct (dirty l !! k); [reflexivity|].
  destruct (parent l) as [p|] eqn:Hp; [|reflexivity].
  pose proof (Hwf c l p Hl Hp). apply IH. intros i Hi. apply Hagree. lia.
Qed.

Lemma Get_agree h h' c k : wf h ->
  (forall i, i <= c -> h !! i = h' !! i) -> Get h c k = Get h' c k.
Proof. intros Hwf Hagree. unfold Get. now apply read_agree. Qed.

Lemma put_lookup_ne h c k ov i : i <> c -> put h c k ov !! i = h !! i.
Proof.
  intros Hne. unfold put. destruct (h !! c); [|reflexivity].
  apply list_lookup_insert_ne. congruence.
Qed.

Lemma put_lookup_eq h c k ov l : h !! c = Some l ->
  put h c k ov !! c
    = Some {| parent := parent l; dirty := <[k := ov]> (dirty l) |}.
Proof.
  intros Hl. unfold put. rewrite Hl. apply list_lookup_insert_eq.
  now apply lookup_lt_Some in Hl.
Qed.

Lemma apply_writes_lookup_ne ops : forall h c i,
  i <> c -> apply_writes h c ops !! i = h !! i.
Proof.
  unfold apply_writes.
  induction ops as [|op ops IH]; intros h c i Hne; [reflexivity|].
  simpl. rewrite IH by assumption.
  destruct op; simpl; now apply put_lookup_ne.
Qed.

(** Writes keep the written layer in place, over the same parent. *)
Lemma apply_writes_lookup_eq ops : forall h c l,
  h !! c = Some l ->
  exists l', apply_writes h c ops !! c = Some l' /\ parent l' = parent l.
Proof.
  unfold apply_writes.
  induction ops as [|op ops IH]; intros h c l Hl; [now exists l|].
  simpl.
  assert (Hput : exists l1, apply_write c h op !! c = Some l1
                            /\ parent l1 = parent l).
  { destruct op; simpl; erewrite put_lookup_eq by eassumption;
      eexists; split; reflexivity. }
  destruct Hput as (l1 & Hl1 & Hp1).
  destruct (IH _ _ _ Hl1) as (l' & Hl' & Hp'). exists l'. split; congruence.
Qed.

Lemma wf_put h c k ov : wf h -> wf (put h c k ov).
Proof.
  intros Hwf i l p Hl Hp. destruct (decide (i = c)) as [->|Hne].
  - destruct (h !! c) as [l0|] eqn:Hl0.
    + rewrite (put_lookup_eq _ _ _ _ _ Hl0) in Hl.
      injection Hl as <-. simpl in Hp. eauto.
    + unfold put in Hl. rewrite Hl0 in Hl. congruence.
  - rewrite put_lookup_ne in Hl by assumption. eauto.
Qed.

Lemma wf_apply_writes ops : forall h c, wf h -> wf (apply_writes h c ops).
Proof.
  unfold apply_writes.
  induction ops as [|op ops IH]; intros h c Hwf; [assumption|].
  simpl. apply IH. destruct op; simpl; now apply wf_put.
Qed.

Lemma CacheContext_lookup h c i : i < List.length h ->
  snd (CacheContext h c) !! i = h !! i.
Proof. intros Hi. simpl. now apply lookup_app_l. Qed.

Lemma CacheContext_fresh h c :
  snd (CacheContext h c) !! (List.length h)
    = Some {| parent := Some c; dirty := ∅ |}.
Proof.
  change (snd (CacheContext h c))
    with (h ++ [{| parent := Some c; dirty := ∅ |}]).
  rewrite lookup_app_r by lia. now rewrite Nat.sub_diag.
Qed.

Lemma wf_CacheContext h c : wf h -> c < List.length h ->
  wf (snd (CacheContext h c)).
Proof.
  intros Hwf Hc i l p Hl Hp.
  destruct (lt_eq_lt_dec i (List.length h)) as [[Hlt | Heq] | Hgt]; [| subst i |].
  - rewrite CacheContext_lookup in Hl by assumption. eauto.
  - rewrite CacheContext_fresh in Hl. injection Hl as <-.
    simpl in Hp. injection Hp as <-. assumption.
  - assert (Hnone : snd (CacheContext h c) !! i = None).
    { apply lookup_ge_None.
      change (snd (CacheContext h c))
        with (h ++ [{| parent := Some c; dirty := ∅ |}]).
      rewrite length_app. simpl. lia. }
    congruence.
Qed.

(** Flushing changes what two layers buffer, not where they sit. *)
Lemma flush_lookup_parent h b i l' :
  flush h b !! i = Some l' ->
  exists l0, h !! i = Some l0 /\ parent l' = parent l0.
Proof.
  unfold flush. intros Hl'.
  destruct (h !! b) as [l|] eqn:Hb; [|now exists l'].
  destruct (parent l) as [p|] eqn:Hp; [|now exists l'].
  destruct (h !! p) as [lp|] eqn:Hlp; [|now exists l'].
  pose proof (lookup_lt_Some _ _ _ Hb) as Hblt.
  pose proof (lookup_lt_Some _ _ _ Hlp) as Hplt.
  destruct (decide (i = b)) as [->|Hib].
  - rewrite list_lookup_insert_eq in Hl' by (now rewrite length_insert).
    injection Hl' as <-. now exists l.
  - rewrite list_lookup_insert_ne in Hl' by congruence.
    destruct (decide (i = p)) as [->|Hip].
    + rewrite list_lookup_insert_eq in Hl' by assumption.
      injection Hl' as <-. now exists lp.
    + rewrite list_lookup_insert_ne in Hl' by congruence. now exists l'.
Qed.

Lemma wf_flush h b : wf h -> wf (flush h b).
Proof.
  intros Hwf i l p Hl Hp.
  destruct (flush_lookup_parent _ _ _ _ Hl) as (l0 & Hl0 & Hpar).
  apply (Hwf i l0 p Hl0). congruence.
Qed.

(** After the flush of layer [b], its parent reads what [b] read. *)
Lemma Get_flush h b l p k : wf h ->
  h !! b = Some l -> parent l = Some p ->
  Get (flush h b) p k = Get h b k.
Proof.
  intros Hwf Hb Hp.
  pose proof (Hwf b l p Hb Hp) as Hpb.
  pose proof (lookup_lt_Some _ _ _ Hb) as Hblt.
  destruct (h !! p) as [lp|] eqn:Hlp.
  2: { apply lookup_ge_None in Hlp. lia. }
  pose proof (lookup_lt_Some _ _ _ Hlp) as Hplt.
  unfold flush. rewrite Hb, Hp, Hlp.
  set (h' := <[b := _]> (<[p := _]> h)).
  assert (Hp' : h' !! p = Some {| parent := parent lp;
                                  dirty := dirty l ∪ dirty lp |}).
  { unfold h'. rewrite list_lookup_insert_ne by lia.
    now apply list_lookup_insert_eq. }
  assert (Hbelow : forall i, i < p -> h !! i = h' !! i).
  { intros i Hi. unfold h'.
    rewrite !list_lookup_insert_ne by lia. reflexivity. }
  unfold Get. rewrite (read_S p h' p k), Hp'. cbn [dirty parent].
  rewrite (read_S b h b k), Hb, Hp.
  destruct (dirty l !! k) as [ov|] eqn:Hk.
  - now rewrite (lookup_union_Some_l _ _ _ _ Hk).
  - rewrite (lookup_union_r _ _ _ Hk).
    rewrite (read_fuel h k Hwf b (S p) p) by lia.
    rewrite (read_S p h p k), Hlp.
    destruct (dirty lp !! k); [reflexivity|].
    destruct (parent lp) as [q|] eqn:Hq; [|reflexivity].
    pose proof (Hwf p lp q Hlp Hq) as Hqp.
    symmetry. apply read_agree; [assumption|].
    intros i Hi. apply Hbelow. lia.
Qed.

End StoreFacts.

Section StoreClaims.
Import StateDB.

Implicit Types (h : Heap) (s b : StateDB) (k : string).

(** Branching a live state succeeds; writes through the branch leave the
    parent's view alone, and [Save] on the branch gives the parent the
    branch's view. *)
Lemma Copy_branch_views h s :
  wf h -> live h s ->
  exists b h1,
    Copy s h = Some (b, h1)
    /\ write b <> None
    /\ forall ops,
         (forall k, view (writes_through b h1 ops) s k = view h s k)
         /\ (forall k, view (Save b (writes_through b h1 ops)) s k
                       = view (writes_through b h1 ops) b k).
Proof.
  intros Hwf (c & Hc & Hlt). unfold Copy. rewrite Hc.
  do 2 eexists. split; [reflexivity|]. split; [discriminate|]. intros ops.
  unfold writes_through, WithContext. cbn [ctx write].
  set (h1 := h ++ [{| parent := Some c; dirty := ∅ |}]).
  set (h2 := apply_writes h1 (List.length h) ops).
  assert (Hbelow : forall i, i <= c -> h !! i = h2 !! i).
  { intros i Hi. unfold h2. rewrite apply_writes_lookup_ne by lia.
    symmetry. apply (CacheContext_lookup h c i). lia. }
  split.
  - intros k. unfold view. rewrite Hc. symmetry. now apply Get_agree.
  - intros k. unfold view, Save. cbn [ctx write]. rewrite Hc.
    destruct (apply_writes_lookup_eq ops h1 (List.length h) _
                (CacheContext_fresh h c)) as (l' & Hl' & Hpar).
    fold h2 in Hl'. cbn [parent] in Hpar.
    apply (Get_flush h2 (List.length h) l' c k); [|assumption..].
    unfold h2. apply wf_apply_writes.
    now apply (wf_CacheContext h c).
Qed.

(** C8. A live state on a well-formed store can be branched with [Copy],
    and for every sequence of writes made through the branch: the parent
    reads every key as before, so its [hashTreeRoot] is unchanged, for as
    long as [Save] is not called on the branch (discarding the branch
    included); and once [Save] is called on the branch, the parent reads
    every key as the branch did. *)
Theorem Copy_isolates_branch_until_Save (merkle : list (option string) -> Z)
    (fields : list string) h s :
  wf h -> live h s ->
  exists b h1,
    Copy s h = Some (b, h1)
    /\ forall ops,
         let h2 := writes_through b h1 ops in
         (forall k, view h2 s k = view h s k)
         /\ hashTreeRoot merkle fields h2 s = hashTreeRoot merkle fields h s
         /\ (forall k, view (Save b h2) s k = view h2 b k).
Proof.
  intros Hwf Hlive.
  destruct (Copy_branch_views h s Hwf Hlive) as (b & h1 & Hcopy & _ & Hops).
  exists b, h1. split; [assumption|]. intros ops. cbv zeta.
  destruct (Hops ops) as [Hview Hsave].
  split; [exact Hview|]. split; [|exact Hsave].
  unfold hashTreeRoot. f_equal. apply map_ext. exact Hview.
Qed.

(** C10 (counterexample). A handle obtained with [WithContext] from a
    branch keeps the branch's [write]: it is not nil, and [Save] on that
    handle changes the backing store. *)
Lemma WithContext_of_branch_keeps_write :
  let h2 := writes_through StoreSamples.branch StoreSamples.branched
              StoreSamples.slot_write in
  let t := WithContext StoreSamples.branch 0 in
  Copy StoreSamples.state StoreSamples.committed
    = Some (StoreSamples.branch, StoreSamples.branched)
  /\ write t <> None
  /\ Save t h2 <> h2
  /\ Get h2 0 "slot" = Some "1"%string
  /\ Get (Save t h2) 0 "slot" = Some "2"%string.
Proof.
  cbv zeta. split; [reflexivity|]. split; [discriminate|].
  assert (H1 : Get (writes_through StoreSamples.branch StoreSamples.branched
                      StoreSamples.slot_write) 0 "slot" = Some "1"%string)
    by (vm_compute; reflexivity).
  assert (H2 : Get (Save (WithContext StoreSamples.branch 0)
                      (writes_through StoreSamples.branch
                         StoreSamples.branched StoreSamples.slot_write))
                 0 "slot" = Some "2"%string)
    by (vm_compute; reflexivity).
  split; [|split; assumption].
  intros Heq. rewrite Heq in H2. congruence.
Qed.

(** C10 (amended). A [StateDB] built by [New] has a nil [write], and
    [Save] on it, or on any handle whose [write] is nil, returns the store
    as it is. [WithContext] keeps the [write] of its receiver, so its
    result has a nil [write] exactly when the receiver has. A [StateDB]
    returned by [Copy] has a non-nil [write], and [Save] on it publishes
    the writes buffered through it to the parent. *)
Theorem Save_without_write_is_noop h s (c : nat) :
  wf h -> live h s ->
  (write New = None /\ Save New h = h)
  /\ write (WithContext s c) = write s
  /\ (write s = None -> Save (WithContext s c) h = h)
  /\ (write (WithContext New c) = None /\ Save (WithContext New c) h = h)
  /\ exists b h1,
       Copy s h = Some (b, h1)
       /\ write b <> None
       /\ forall ops k,
            view (Save b (writes_through b h1 ops)) s k
              = view (writes_through b h1 ops) b k.
Proof.
  intros Hwf Hlive. split; [now split|]. split; [reflexivity|].
  split; [intros Hw; unfold Save, WithContext; cbn [write]; now rewrite Hw|].
  split; [now split|].
  destruct (Copy_branch_views h s Hwf Hlive)
    as (b & h1 & Hcopy & Hwrite & Hops).
  exists b, h1. split; [assumption|]. split; [assumption|].
  intros ops k. apply (Hops ops).
Qed.

End StoreClaims.

(* ===================================================================== *)
(** ** Worked instances *)
(* ===================================================================== *)

Section Instances.
Import Errors.

Lemma committed_wf : StateDB.wf StoreSamples.committed.
Proof.
  intros i l p Hl Hp. destruct i as [|i]; simpl in Hl.
  - injection Hl as <-. discriminate Hp.
  - now rewrite lookup_nil in Hl.
Qed.

Lemma state_live : StateDB.live StoreSamples.committed StoreSamples.state.
Proof. exists 0. split; [reflexivity|]. simpl. lia. Qed.

(** Two INVALID-class replies, then VALID: three forkchoice updates. *)
Lemma NotifyForkchoiceUpdate_retries_once_per_invalid_witness :
  exists r,
    Engine.NotifyForkchoiceUpdate 3 Engine.scripted
      ([Engine.status_reply ErrInvalidPayloadStatus;
        Engine.status_reply ErrInvalidBlockHashPayloadStatus]
       ++ Engine.valid_reply :: []) Samples.fcu_request = Some r
    /\ List.length (Engine.fcu_calls r) = 3
    /\ Engine.retries (Engine.fcu_calls r) = 2
    /\ Engine.fcu_client r = []
    /\ Engine.fcu_req r = Engine.set_head_to_safe Samples.fcu_request.
Proof.
  apply (NotifyForkchoiceUpdate_retries_once_per_invalid
           [Engine.status_reply ErrInvalidPayloadStatus;
            Engine.status_reply ErrInvalidBlockHashPayloadStatus]
           Engine.valid_reply [] 3 Samples.fcu_request).
  - repeat constructor.
  - reflexivity.
  - simpl. lia.
Defined.



(** The transition answers ACCEPTED: [verifyStateRoot] returns nil, having
    run the state processor with every switch off. *)
Lemma verifyStateRoot_swallows_only_accepted_witness :
  exists tctx,
    Blockchain.OptimisticEngine tctx = false
    /\ Blockchain.SkipPayloadVerification tctx = false
    /\ Blockchain.SkipValidateResult tctx = false
    /\ Blockchain.SkipValidateRandao tctx = false
    /\ fst (fst (Blockchain.verifyStateRoot
                   (ServiceSamples.scripted
                      (ServiceSamples.rejecting
                         (Sentinel ErrAcceptedPayloadStatus)
                         (ServiceSamples.header_read ServiceSamples.healthy)))
                   1 ServiceSamples.block 1000 [1; 2; 3]%Z []))
       = None.
Proof.
  destruct (verifyStateRoot_swallows_only_accepted
              (ServiceSamples.scripted
                 (ServiceSamples.rejecting
                    (Sentinel ErrAcceptedPayloadStatus)
                    (ServiceSamples.header_read ServiceSamples.healthy)))
              1 ServiceSamples.block 1000 [1; 2; 3]%Z [] None [1%Z] _
              eq_refl)
    as (tctx & _ & H1 & H2 & H3 & H4 & _).
  exists tctx. repeat split; assumption.
Defined.

(** Sidecars that do not verify: the blob processor is the only
    collaborator called and the store is as it was. *)
Lemma ProcessProposal_sidecars_gate_witness :
  let r := Blockchain.ProcessProposal
             (ServiceSamples.scripted ServiceSamples.bad_blobs)
             ServiceSamples.service ServiceSamples.request [] in
  Blockchain.pp_events r
    = [Blockchain.EvVerifySidecars [ServiceSamples.sidecar]
         (Blockchain.GetHeader ServiceSamples.block)]
  /\ Blockchain.pp_world r = [].
Proof.
  destruct (ProcessProposal_sidecars_gate
              (ServiceSamples.scripted ServiceSamples.bad_blobs)
              ServiceSamples.service ServiceSamples.request []
              ServiceSamples.block (Some [ServiceSamples.sidecar])
              eq_refl eq_refl) as [_ Hfail].
  destruct (Hfail [ServiceSamples.sidecar] (Sentinel (ErrOther 2)) eq_refl
              (Nat.lt_0_succ 0) eq_refl) as (Hev & _ & _ & Hw & _).
  split; assumption.
Defined.

(** The block is rejected as INVALID and the header read fails with
    another error: that other error is what the caller gets. *)
Lemma VerifyIncomingBlock_header_error_replaces_rejection_witness :
  let r := Blockchain.VerifyIncomingBlock
             (ServiceSamples.scripted
                (ServiceSamples.rejecting (Sentinel ErrInvalidPayloadStatus)
                   ({| Blockchain.GetTimestamp := 0 |},
                    Some (Sentinel (ErrOther 7)))))
             ServiceSamples.service ServiceSamples.block 1000 [1; 2; 3]%Z [] in
  Blockchain.out_err r = Some (Sentinel (ErrOther 7))
  /\ existsb Blockchain.is_rebuild (Blockchain.out_events r) = false
  /\ Blockchain.out_world r = [1%Z].
Proof.
  exact (VerifyIncomingBlock_header_error_replaces_rejection
           (ServiceSamples.scripted
              (ServiceSamples.rejecting (Sentinel ErrInvalidPayloadStatus)
                 ({| Blockchain.GetTimestamp := 0 |},
                  Some (Sentinel (ErrOther 7)))))
           ServiceSamples.service ServiceSamples.block_data 1000 [1; 2; 3]%Z
           [] 1 [] [1%Z] (Sentinel ErrInvalidPayloadStatus) _
           {| Blockchain.GetTimestamp := 0 |} (Sentinel (ErrOther 7))
           eq_refl eq_refl eq_refl eq_refl).
Defined.

(** Branching the committed store of the samples. *)
Lemma Copy_isolates_branch_until_Save_witness :
  exists b h1,
    StateDB.Copy StoreSamples.state StoreSamples.committed = Some (b, h1)
    /\ forall ops,
         let h2 := StateDB.writes_through b h1 ops in
         (forall k, StateDB.view h2 StoreSamples.state k
                    = StateDB.view StoreSamples.committed StoreSamples.state k)
         /\ StateDB.hashTreeRoot StoreSamples.sum_lengths ["slot"%string] h2
              StoreSamples.state
            = StateDB.hashTreeRoot StoreSamples.sum_lengths ["slot"%string]
                StoreSamples.committed StoreSamples.state
         /\ (forall k, StateDB.view (StateDB.Save b h2) StoreSamples.state k
                       = StateDB.view h2 b k).
Proof.
  exact (Copy_isolates_branch_until_Save StoreSamples.sum_lengths
           ["slot"%string] StoreSamples.committed StoreSamples.state
           committed_wf state_live).
Defined.

(** [New] and [WithContext] on the samples' store. *)
Lemma Save_without_write_is_noop_witness :
  StateDB.write (StateDB.WithContext StoreSamples.state 0) = None
  /\ StateDB.Save (StateDB.WithContext StoreSamples.state 0)
       StoreSamples.committed = StoreSamples.committed.
Proof.
  destruct (Save_without_write_is_noop StoreSamples.committed
              StoreSamples.state 0 committed_wf state_live)
    as (_ & Hkeep & Hnoop & _).
  split; [exact Hkeep|exact (Hnoop eq_refl)].
Defined.

End Instances.

(* ===================================================================== *)
(** ** More on the execution engine adapter *)
(* ===================================================================== *)

Section EngineRuns.
Import Errors Engine Observe.

Context {C : Type} (ec : EngineClient C).

Lemma set_head_to_safe_idem (req : ForkchoiceUpdateRequest) :
  set_head_to_safe (set_head_to_safe req) = set_head_to_safe req.
Proof. reflexivity. Qed.


(** The shape of a finished run of [NotifyForkchoiceUpdate]. *)
Lemma NotifyForkchoiceUpdate_shape (fuel : nat) :
  forall (s : C) req r,
    NotifyForkchoiceUpdate fuel ec s req = Some r ->
    exists e rest,
      fcu_calls r = CallForkchoiceUpdated (State req) e :: rest
      /\ Forall (fun c => sent_state c = Some (State (set_head_to_safe req)))
                rest
      /\ (rest = [] -> triggers_retry e = false /\ fcu_req r = req)
      /\ (rest <> [] ->
          triggers_retry e = true /\ fcu_req r = set_head_to_safe req
          /\ fcu_err r <> None)
      /\ (fcu_err r <> None ->
          (fcu_payloadID r = None /\ fcu_latestValidHash r = None)
          \/ (fcu_err r = Some (Sentinel ErrBadBlockProduced)
              /\ List.length rest = 1)).
Proof.
  induction fuel as [|fuel IH]; intros s req r H; [discriminate|].
  destruct (ForkchoiceUpdated ec s (State req) (Attributes req)
              (ForkVersion req)) as [[[pid lvh] e] s1] eqn:Hfc.
  rewrite (NotifyForkchoiceUpdate_step ec _ _ _ _ _ _ _ Hfc) in H.
  cbv zeta in H. unfold triggers_retry.
  destruct (is_optimistic_status e) eqn:Hopt.
  { injection H as <-. exists e, []. cbn [fcu_calls fcu_req fcu_err].
    rewrite Hopt. repeat split; try constructor; try congruence. }
  destruct (is_invalid_status e) eqn:Hinv.
  - destruct (NotifyForkchoiceUpdate fuel ec s1 (set_head_to_safe req))
      as [r'|] eqn:Hrec; [|discriminate].
    destruct (IH _ _ _ Hrec) as (e2 & rest2 & Hcalls & Hall & Hnil & Hcons & _).
    assert (Hreq : fcu_req r' = set_head_to_safe req).
    { destruct rest2 as [|c2 rest2].
      - now destruct (Hnil eq_refl).
      - destruct (Hcons ltac:(discriminate)) as (_ & Hr & _).
        rewrite Hr. apply set_head_to_safe_idem. }
    destruct (fcu_err r') as [e'|] eqn:He'; injection H as <-;
      exists e, (fcu_calls r'); cbn [fcu_calls fcu_req fcu_err fcu_payloadID
                                     fcu_latestValidHash];
      rewrite Hopt, Hinv.
    + repeat split; try congruence; try (intros _; now left).
      rewrite Hcalls in *. constructor; [reflexivity|exact Hall].
    + assert (Hrest2 : rest2 = []).
      { destruct rest2 as [|c2 rest2]; [reflexivity|].
        destruct (Hcons ltac:(discriminate)) as (_ & _ & Hne).
        now contradiction Hne. }
      subst rest2.
      repeat split; try congruence;
        try (intros _; right; rewrite Hcalls; now split).
      rewrite Hcalls. constructor; [reflexivity|constructor].
  - assert (Hno : negb (is_optimistic_status e) && is_invalid_status e
                  = false) by (now rewrite Hopt, Hinv).
    destruct e as [e'|]; injection H as <-.
    + exists (Some e'), [].
      cbn [fcu_calls fcu_req fcu_err fcu_payloadID fcu_latestValidHash].
      split; [reflexivity|]. split; [constructor|].
      split; [intros _; now split|].
      split; [intros Hne; now contradiction Hne|].
      intros _. now left.
    + exists None, [].
      cbn [fcu_calls fcu_req fcu_err fcu_payloadID fcu_latestValidHash].
      split; [reflexivity|]. split; [constructor|].
      split; [intros _; now split|].
      split; [intros Hne; now contradiction Hne|].
      intros Hne. now contradiction Hne.
Qed.



(** X3. [NotifyForkchoiceUpdate] changes nothing of the request except the
    head hash, and the head it leaves is either the one it got or the
    request's safe hash. *)
Theorem NotifyForkchoiceUpdate_touches_head_only (fuel : nat) (s : C)
    (req : ForkchoiceUpdateRequest) (r : FcuOutcome C) :
  NotifyForkchoiceUpdate fuel ec s req = Some r ->
  SafeBlockHash (State (fcu_req r)) = SafeBlockHash (State req)
  /\ FinalizedBlockHash (State (fcu_req r)) = FinalizedBlockHash (State req)
  /\ Attributes (fcu_req r) = Attributes req
  /\ ForkVersion (fcu_req r) = ForkVersion req
  /\ (HeadBlockHash (State (fcu_req r)) = HeadBlockHash (State req)
      \/ HeadBlockHash (State (fcu_req r)) = SafeBlockHash (State req)).
Proof.
  intros H.
  destruct (NotifyForkchoiceUpdate_shape fuel s req r H)
    as (e & rest & _ & _ & Hnil & Hcons & _).
  destruct rest as [|c rest].
  - destruct (Hnil eq_refl) as [_ ->]. repeat split. now left.
  - destruct (Hcons ltac:(discriminate)) as (_ & -> & _).
    repeat split. now right.
Qed.

(** X4. When [NotifyForkchoiceUpdate] fails, it returns nil for the payload
    id and the latest valid hash, with one exception: after exactly one
    retry that succeeded it returns the retry's values together with
    [ErrBadBlockProduced]. *)
Theorem NotifyForkchoiceUpdate_values_on_error (fuel : nat) (s : C)
    (req : ForkchoiceUpdateRequest) (r : FcuOutcome C) (e : err) :
  NotifyForkchoiceUpdate fuel ec s req = Some r ->
  fcu_err r = Some e ->
  (fcu_payloadID r = None /\ fcu_latestValidHash r = None)
  \/ (e = Sentinel ErrBadBlockProduced /\ retries (fcu_calls r) = 1).
Proof.
  intros H He.
  destruct (NotifyForkchoiceUpdate_shape fuel s req r H)
    as (e0 & rest & Hcalls & Hall & _ & _ & Hval).
  destruct (Hval ltac:(congruence)) as [Hnone|[Hbad Hlen]]; [now left|].
  right. split; [congruence|].
  pose proof (NotifyForkchoiceUpdate_calls ec fuel s req r H) as Hfilter.
  unfold retries. rewrite Hfilter, Hcalls. simpl. lia.
Qed.

End EngineRuns.

Section PayloadRuns.
Import Errors Engine Observe.

Context {C : Type} (ec : EngineClient C).

(** X5. [VerifyAndNotifyNewPayload] speaks to the client at most once and
    never sends a forkchoice update. A request that fails the local hash
    check is answered with that error before any call, the client left as
    it was; otherwise the one call is [HeaderByHash] when [SkipIfExists] is
    set and [NewPayload] when it is not. *)
Theorem VerifyAndNotifyNewPayload_one_call_at_most (s : C)
    (req : NewPayloadRequest) (res : error) (s' : C) (calls : list Call) :
  VerifyAndNotifyNewPayload ec s req = (res, s', calls) ->
  List.length calls <= 1
  /\ List.filter is_forkchoice_call calls = []
  /\ (forall e, HashesCheck req = Some e ->
        res = Some e /\ s' = s /\ calls = [])
  /\ (HashesCheck req = None -> SkipIfExists req = true ->
        exists e, calls = [CallHeaderByHash (BlockHash (Payload req)) e])
  /\ (HashesCheck req = None -> SkipIfExists req = false ->
        exists e, calls = [CallNewPayload (Payload req) e]).
Proof.
  unfold VerifyAndNotifyNewPayload. intros Hrun.
  destruct (HashesCheck req) as [e0|].
  { injection Hrun as <- <- <-. repeat split; try discriminate; auto.
    all: intros e He; now injection He as <-. }
  destruct (SkipIfExists req).
  { destruct (HeaderByHash ec s (BlockHash (Payload req))) as [[hd e] s0].
    injection Hrun as <- <- <-. repeat split; try discriminate; auto.
    intros _ _. now exists e. }
  destruct (NewPayload ec s (Payload req) (VersionedHashes req)
              (ParentBeaconBlockRoot req)) as [[lvh e] s0].
  assert (Hcalls : calls = [CallNewPayload (Payload req) e]).
  { destruct (is_optimistic_status e); [destruct (Optimistic req)|
      destruct (is_invalid_status e)]; now injection Hrun as <- <- <-. }
  subst calls. repeat split; try discriminate; auto.
  intros _ _. now exists e.
Qed.

(** X6. With valid hashes and the [Optimistic] flag set, the error
    [VerifyAndNotifyNewPayload] returns is never a SYNCING or ACCEPTED
    status, whatever the client replies. *)
Theorem VerifyAndNotifyNewPayload_optimistic_hides_syncing (s : C)
    (req : NewPayloadRequest) :
  HashesCheck req = None ->
  Optimistic req = true ->
  is_optimistic_status (fst (fst (VerifyAndNotifyNewPayload ec s req)))
    = false.
Proof.
  unfold VerifyAndNotifyNewPayload. intros Hh Ho. rewrite Hh, Ho.
  destruct (SkipIfExists req).
  { now destruct (HeaderByHash ec s (BlockHash (Payload req)))
      as [[hd e] s0]. }
  destruct (NewPayload ec s (Payload req) (VersionedHashes req)
              (ParentBeaconBlockRoot req)) as [[lvh e] s0].
  destruct (is_optimistic_status e) eqn:Hopt; [reflexivity|].
  destruct (is_invalid_status e); [reflexivity|exact Hopt].
Qed.

(** X7. Every reply of [NewPayload] that is neither SYNCING/ACCEPTED nor
    INVALID/INVALID_BLOCK_HASH is handed back as it is: nil for VALID, the
    client's error otherwise. The reply is the one the client gives to the
    submission of the request's payload, which is the only call made. *)
Theorem VerifyAndNotifyNewPayload_other_replies_unchanged (s : C)
    (req : NewPayloadRequest) (lvh : option ExecutionHash) (e : error)
    (s1 : C) :
  HashesCheck req = None ->
  SkipIfExists req = false ->
  NewPayload ec s (Payload req) (VersionedHashes req)
    (ParentBeaconBlockRoot req) = (lvh, e, s1) ->
  is_optimistic_status e = false ->
  is_invalid_status e = false ->
  VerifyAndNotifyNewPayload ec s req
    = (e, s1, [CallNewPayload (Payload req) e]).
Proof.
  intros Hh Hs Hnp Ho Hi. unfold VerifyAndNotifyNewPayload.
  rewrite Hh, Hs, Hnp, Ho, Hi. reflexivity.
Qed.

End PayloadRuns.

(* ===================================================================== *)
(** ** More on the blockchain service *)
(* ===================================================================== *)

Section ServiceRuns.
Import Errors Blockchain Observe.

Context {W St : Type} (d : Collaborators W St).

(** [VerifyIncomingBlock] on a block that is not nil, spelled out from the
    copy it makes and the verification it runs. *)
Lemma VerifyIncomingBlock_unfold (s : Service) (b : BeaconBlockData) (t : Z)
    (addr : list Z) (w : W) (post : St) (w1 w2 : W) (e : error)
    (ev : list (Event St)) :
  Copy d (StateFromContext d w) (world_at_copy d s w) = (post, w1) ->
  verifyStateRoot d post (Some b) t addr w1 = (e, w2, ev) ->
  VerifyIncomingBlock d s (Some b) t addr w =
    let pre := StateFromContext d w in
    let s0 := if startupSyncDone s then s
              else {| optimisticPayloadBuilds := optimisticPayloadBuilds s;
                      startupSyncDone := true |} in
    let evs := (if startupSyncDone s then [] else [EvForceStartupHead pre])
               ++ [EvCopy pre] ++ ev in
    match e with
    | Some e' =>
        if shouldBuildOptimisticPayloads d s then
          match GetLatestExecutionPayloadHeader d pre w2 with
          | (_, Some e1) =>
              {| out_err := Some e1; out_world := w2; out_service := s0;
                 out_events := evs ++ [EvReadPayloadHeader pre] |}
          | (lph, None) =>
              {| out_err := None; out_world := w2; out_service := s0;
                 out_events :=
                   evs ++ [EvReadPayloadHeader pre;
                           EvGoRebuildPayload pre
                             (Next d t (GetTimestamp lph) true)] |}
          end
        else {| out_err := Some e'; out_world := w2; out_service := s0;
                out_events := evs |}
    | None =>
        if shouldBuildOptimisticPayloads d s then
          match GetLatestExecutionPayloadHeader d post w2 with
          | (_, Some e1) =>
              {| out_err := Some e1; out_world := w2; out_service := s0;
                 out_events := evs ++ [EvReadPayloadHeader post] |}
          | (lph, None) =>
              {| out_err := None; out_world := w2; out_service := s0;
                 out_events :=
                   evs ++ [EvReadPayloadHeader post;
                           EvGoOptimisticBuild post (Some b)
                             (Next d t (GetTimestamp lph) true)] |}
          end
        else {| out_err := None; out_world := w2; out_service := s0;
                out_events := evs |}
    end.
Proof.
  intros Hcopy Hver. unfold VerifyIncomingBlock.
  unfold world_at_copy in Hcopy. unfold shouldBuildOptimisticPayloads.
  destruct (startupSyncDone s); rewrite Hcopy, Hver; cbv zeta;
    cbn [optimisticPayloadBuilds];
    destruct e; destruct (optimisticPayloadBuilds s && localBuilderEnabled d);
    try reflexivity.
  all: destruct (GetLatestExecutionPayloadHeader d _ w2) as [lph [e1|]];
    reflexivity.
Qed.

(** Case analysis on a run of [VerifyIncomingBlock]. *)
Ltac vib_cases s blk t addr w :=
  destruct blk as [?b|];
  [ destruct (Copy d (StateFromContext d w) (world_at_copy d s w))
      as [?post ?w1] eqn:?Hcopy;
    match goal with
    | Hc : Copy d _ _ = (?post, ?w1) |- _ =>
        let tctx := fresh "tctx" in
        let Hev := fresh "Hev" in
        destruct (verifyStateRoot_events d post (Some b) t addr w1)
          as [tctx Hev];
        destruct (verifyStateRoot d post (Some b) t addr w1)
          as [[?e ?w2] ?ev] eqn:?Hver;
        simpl in Hev; subst;
        match goal with
        | Hv : verifyStateRoot d post (Some b) t addr w1 = _ |- _ =>
            rewrite (VerifyIncomingBlock_unfold s b t addr w post w1 _ _ _
                       Hc Hv)
        end
    end;
    cbv zeta;
    match goal with
    | Hv : verifyStateRoot d _ _ t addr _ = (?e, ?w2, _) |- _ =>
        destruct e;
        destruct (shouldBuildOptimisticPayloads d s) eqn:?Hbuild;
        try destruct (GetLatestExecutionPayloadHeader d _ w2)
          as [?lph [?e1|]] eqn:?Hread
    end
  | unfold VerifyIncomingBlock ];
  destruct (startupSyncDone s) eqn:?Hdone.

(** X8. [createProcessProposalResponse] returns a non-nil error exactly
    with status REJECT, and then the error is its argument, which is fatal;
    it returns status ACCEPT exactly with a nil error, which is what every
    error that is not fatal gets. The status is never left unknown. *)
Theorem createProcessProposalResponse_status_and_error (e : error) :
  (Status (fst (createProcessProposalResponse e))
     = PROCESS_PROPOSAL_STATUS_REJECT
   <-> snd (createProcessProposalResponse e) <> None)
  /\ (Status (fst (createProcessProposalResponse e))
        = PROCESS_PROPOSAL_STATUS_ACCEPT
      <-> snd (createProcessProposalResponse e) = None)
  /\ Status (fst (createProcessProposalResponse e))
       <> PROCESS_PROPOSAL_STATUS_UNKNOWN
  /\ (snd (createProcessProposalResponse e) <> None <-> IsFatal e = true)
  /\ (snd (createProcessProposalResponse e) <> None ->
      snd (createProcessProposalResponse e) = e).
Proof.
  unfold createProcessProposalResponse.
  destruct (IsFatal e) eqn:Hf; simpl.
  - assert (He : e <> None) by (intros ->; discriminate).
    repeat split; try discriminate; auto; intros H; congruence.
  - repeat split; try discriminate; auto; intros H; congruence.
Qed.

(** X9. [ProcessProposal] answers every request with status ACCEPT and a
    nil error: each error it meets is wrapped as non-fatal before
    [createProcessProposalResponse] sees it, so neither REJECT nor an error
    ever leaves the handler, not even when [VerifyIncomingBlock] has
    returned an error. *)
Theorem ProcessProposal_never_rejects (s : Service)
    (req : ProcessProposalRequest) (w : W) :
  let r := ProcessProposal d s req w in
  Status (pp_response r) = PROCESS_PROPOSAL_STATUS_ACCEPT
  /\ pp_err r = None
  /\ Status (pp_response r) <> PROCESS_PROPOSAL_STATUS_REJECT.
Proof.
  cbv zeta. unfold ProcessProposal.
  destruct (UnmarshalBeaconBlockFromABCIRequest d req BeaconBlockTxIndex _)
    as [blk [e|]]; [now repeat split|].
  destruct (UnmarshalBlobSidecarsFromABCIRequest d req BlobSidecarsTxIndex)
    as [sidecars [e|]]; [now repeat split|].
  match goal with |- context [fst ?b] => destruct (fst b) end;
    [now repeat split|].
  destruct (out_err _); now repeat split.
Qed.

(** X10. When the block, or after it the sidecars, do not decode,
    [ProcessProposal] calls no collaborator: no event, and the world and
    the service are the ones it was called with. *)
Theorem ProcessProposal_decode_failure_calls_nothing (s : Service)
    (req : ProcessProposalRequest) (w : W) :
  snd (UnmarshalBeaconBlockFromABCIRequest d req BeaconBlockTxIndex
         (ActiveForkVersionForSlot d (Height req))) <> None
  \/ snd (UnmarshalBlobSidecarsFromABCIRequest d req BlobSidecarsTxIndex)
       <> None ->
  pp_events (ProcessProposal d s req w) = []
  /\ pp_world (ProcessProposal d s req w) = w
  /\ pp_service (ProcessProposal d s req w) = s.
Proof.
  unfold ProcessProposal.
  destruct (UnmarshalBeaconBlockFromABCIRequest d req BeaconBlockTxIndex _)
    as [blk [e|]]; [now intros _|].
  destruct (UnmarshalBlobSidecarsFromABCIRequest d req BlobSidecarsTxIndex)
    as [sidecars [e|]]; [now intros _|].
  simpl. intros [H|H]; now contradiction H.
Qed.

(** X11. A nil block makes [VerifyIncomingBlock] return [ErrNilBlk] wrapped
    as non-fatal without copying the state, running the state processor,
    reading the payload header or launching a goroutine; the startup
    synchronisation, which comes first, is all that can have touched the
    world. *)
Theorem VerifyIncomingBlock_nil_block (s : Service) (t : Z) (addr : list Z)
    (w : W) :
  let r := VerifyIncomingBlock d s None t addr w in
  out_err r = Some (WrapNonFatal (Sentinel ErrNilBlk))
  /\ IsFatal (out_err r) = false
  /\ out_world r = world_at_copy d s w
  /\ existsb is_copy (out_events r) = false
  /\ existsb is_transition (out_events r) = false
  /\ existsb is_read_header (out_events r) = false
  /\ existsb is_goroutine (out_events r) = false.
Proof.
  cbv zeta. unfold VerifyIncomingBlock, world_at_copy.
  destruct (startupSyncDone s); repeat split.
Qed.

Lemma VerifyIncomingBlock_marks_startup (s : Service) (blk : BeaconBlock)
    (t : Z) (addr : list Z) (w : W) :
  startupSyncDone (out_service (VerifyIncomingBlock d s blk t addr w)) = true
  /\ optimisticPayloadBuilds
       (out_service (VerifyIncomingBlock d s blk t addr w))
     = optimisticPayloadBuilds s
  /\ existsb is_force_startup
       (out_events (VerifyIncomingBlock d s blk t addr w))
     = negb (startupSyncDone s).
Proof.
  vib_cases s blk t addr w; repeat split; assumption.
Qed.

(** X12. The startup synchronisation runs in the first call of
    [VerifyIncomingBlock] and in no later one: a call runs it exactly when
    the service has not run it yet, nil block or not, and leaves a service
    on which no further call runs it; the service's optimistic-build
    setting is never changed. *)
Theorem VerifyIncomingBlock_startup_sync_once (s : Service)
    (blk : BeaconBlock) (t : Z) (addr : list Z) (w : W) :
  let r := VerifyIncomingBlock d s blk t addr w in
  existsb is_force_startup (out_events r) = negb (startupSyncDone s)
  /\ startupSyncDone (out_service r) = true
  /\ optimisticPayloadBuilds (out_service r) = optimisticPayloadBuilds s
  /\ forall blk' t' addr' w',
       existsb is_force_startup
         (out_events (VerifyIncomingBlock d (out_service r) blk' t' addr' w'))
       = false.
Proof.
  cbv zeta.
  destruct (VerifyIncomingBlock_marks_startup s blk t addr w)
    as (Hdone & Hopt & Hev).
  repeat split; try assumption.
  intros blk' t' addr' w'.
  destruct (VerifyIncomingBlock_marks_startup
              (out_service (VerifyIncomingBlock d s blk t addr w))
              blk' t' addr' w') as (_ & _ & Hev').
  rewrite Hev', Hdone. reflexivity.
Qed.

(** X13. With optimistic payload builds off, [VerifyIncomingBlock] on a
    block that is not nil returns exactly what [verifyStateRoot] returned
    for the copy of the pre-state, reads no payload header and launches no
    goroutine. *)
Theorem VerifyIncomingBlock_without_builds (s : Service)
    (b : BeaconBlockData) (t : Z) (addr : list Z) (w : W) (post : St)
    (w1 : W) :
  shouldBuildOptimisticPayloads d s = false ->
  Copy d (StateFromContext d w) (world_at_copy d s w) = (post, w1) ->
  let r := VerifyIncomingBlock d s (Some b) t addr w in
  out_err r = fst (fst (verifyStateRoot d post (Some b) t addr w1))
  /\ out_world r = snd (fst (verifyStateRoot d post (Some b) t addr w1))
  /\ existsb is_read_header (out_events r) = false
  /\ existsb is_goroutine (out_events r) = false.
Proof.
  intros Hbuild Hcopy. cbv zeta.
  destruct (verifyStateRoot_events d post (Some b) t addr w1) as [tctx Hev].
  destruct (verifyStateRoot d post (Some b) t addr w1) as [[e w2] ev] eqn:Hver.
  simpl in Hev. subst ev.
  rewrite (VerifyIncomingBlock_unfold s b t addr w post w1 w2 e _ Hcopy Hver).
  cbv zeta. rewrite Hbuild.
  destruct e; destruct (startupSyncDone s); repeat split.
Qed.

(** X14. When [verifyStateRoot] rejects the block, optimistic payload
    builds are on and the payload header is read from the pre-state
    without error, [VerifyIncomingBlock] returns nil: the assignment of the
    header read has overwritten the verification error. The rebuild is
    launched on the pre-state for the time [Next] computes from the
    consensus time and the header's timestamp. *)
Theorem VerifyIncomingBlock_rejection_replaced_by_nil (s : Service)
    (b : BeaconBlockData) (t : Z) (addr : list Z) (w : W) (post : St)
    (w1 w2 : W) (e : err) (ev : list (Event St))
    (lph : ExecutionPayloadHeader) :
  Copy d (StateFromContext d w) (world_at_copy d s w) = (post, w1) ->
  verifyStateRoot d post (Some b) t addr w1 = (Some e, w2, ev) ->
  shouldBuildOptimisticPayloads d s = true ->
  GetLatestExecutionPayloadHeader d (StateFromContext d w) w2 = (lph, None) ->
  let r := VerifyIncomingBlock d s (Some b) t addr w in
  out_err r = None
  /\ out_world r = w2
  /\ In (EvGoRebuildPayload (StateFromContext d w)
           (Next d t (GetTimestamp lph) true)) (out_events r)
  /\ existsb is_optimistic_build (out_events r) = false.
Proof.
  intros Hcopy Hver Hbuild Hread. cbv zeta.
  destruct (verifyStateRoot_events d post (Some b) t addr w1) as [tctx Hev].
  rewrite Hver in Hev. simpl in Hev. subst ev.
  rewrite (VerifyIncomingBlock_unfold s b t addr w post w1 w2 _ _ Hcopy Hver).
  cbv zeta. rewrite Hbuild, Hread.
  destruct (startupSyncDone s); cbn [out_err out_world out_events];
    repeat split; simpl; auto 10.
Qed.

(** X15. When [verifyStateRoot] accepts the block and optimistic payload
    builds are on, [VerifyIncomingBlock] reads the payload header from the
    copy, not from the pre-state, and returns what that read returned: on
    success nil, with the next build launched on the copy for the block; on
    failure the read's error, with no goroutine. No rebuild is launched. *)
Theorem VerifyIncomingBlock_accepted_launches_build (s : Service)
    (b : BeaconBlockData) (t : Z) (addr : list Z) (w : W) (post : St)
    (w1 w2 : W) (ev : list (Event St)) (lph : ExecutionPayloadHeader)
    (e1 : error) :
  Copy d (StateFromContext d w) (world_at_copy d s w) = (post, w1) ->
  verifyStateRoot d post (Some b) t addr w1 = (None, w2, ev) ->
  shouldBuildOptimisticPayloads d s = true ->
  GetLatestExecutionPayloadHeader d post w2 = (lph, e1) ->
  let r := VerifyIncomingBlock d s (Some b) t addr w in
  out_err r = e1
  /\ out_world r = w2
  /\ In (EvReadPayloadHeader post) (out_events r)
  /\ (e1 = None ->
      In (EvGoOptimisticBuild post (Some b)
            (Next d t (GetTimestamp lph) true)) (out_events r))
  /\ (e1 <> None -> existsb is_goroutine (out_events r) = false)
  /\ existsb is_rebuild (out_events r) = false.
Proof.
  intros Hcopy Hver Hbuild Hread. cbv zeta.
  destruct (verifyStateRoot_events d post (Some b) t addr w1) as [tctx Hev].
  rewrite Hver in Hev. simpl in Hev. subst ev.
  rewrite (VerifyIncomingBlock_unfold s b t addr w post w1 w2 _ _ Hcopy Hver).
  cbv zeta. rewrite Hbuild, Hread.
  destruct e1 as [e1|]; destruct (startupSyncDone s);
    cbn [out_err out_world out_events];
    repeat split; simpl; auto 10; try discriminate;
    intros H; now contradiction H.
Qed.

(** X16. One call of [VerifyIncomingBlock] launches at most one goroutine,
    and none with optimistic payload builds off; a rebuild is only ever
    launched on the pre-state, and an optimistic build only on the copy of
    the pre-state, for the block that was verified. *)
Theorem VerifyIncomingBlock_goroutines (s : Service) (blk : BeaconBlock)
    (t : Z) (addr : list Z) (w : W) :
  let r := VerifyIncomingBlock d s blk t addr w in
  List.length (List.filter is_goroutine (out_events r)) <= 1
  /\ (shouldBuildOptimisticPayloads d s = false ->
      List.filter is_goroutine (out_events r) = [])
  /\ (forall st ts, In (EvGoRebuildPayload st ts) (out_events r) ->
        st = StateFromContext d w)
  /\ (forall st blk' ts,
        In (EvGoOptimisticBuild st blk' ts) (out_events r) ->
        st = fst (Copy d (StateFromContext d w) (world_at_copy d s w))
        /\ blk' = blk).
Proof.
  cbv zeta.
  vib_cases s blk t addr w; cbn [out_events];
    (split; [simpl; lia|]);
    (split; [try discriminate; reflexivity|]);
    (split; [intros st ts Hin|intros st blk' ts Hin]);
    simpl in Hin;
    repeat (destruct Hin as [Hin|Hin]; try discriminate Hin);
    try contradiction;
    try (injection Hin as <- <-; reflexivity);
    try (injection Hin as <- <- <-; now split).
Qed.

(** X17. [verifyStateRoot] never returns an error that is
    [ErrAcceptedPayloadStatus], whatever the state processor returns. *)
Theorem verifyStateRoot_never_returns_accepted (st : St) (blk : BeaconBlock)
    (t : Z) (addr : list Z) (w : W) :
  Is (fst (fst (verifyStateRoot d st blk t addr w))) ErrAcceptedPayloadStatus
    = false.
Proof.
  unfold verifyStateRoot. destruct (Transition d _ st blk w) as [e w1].
  destruct (Is e ErrAcceptedPayloadStatus) eqn:Hacc; [reflexivity|exact Hacc].
Qed.

(** X18. Once block and sidecars are decoded and the sidecars are absent,
    empty or verified, the world and the service [ProcessProposal] leaves
    are those of [VerifyIncomingBlock] run in the world of the call on the
    decoded block, with the request's time and proposer address; its
    events are those of that run, after at most the one call of the blob
    processor. *)
Theorem ProcessProposal_runs_VerifyIncomingBlock (s : Service)
    (req : ProcessProposalRequest) (w : W) (blk : BeaconBlock)
    (sidecars : BlobSidecars) :
  UnmarshalBeaconBlockFromABCIRequest d req BeaconBlockTxIndex
    (ActiveForkVersionForSlot d (Height req)) = (blk, None) ->
  UnmarshalBlobSidecarsFromABCIRequest d req BlobSidecarsTxIndex
    = (sidecars, None) ->
  (forall l, sidecars = Some l -> 0 < List.length l ->
             VerifySidecars d l (GetHeader blk) = None) ->
  let r := ProcessProposal d s req w in
  let v := VerifyIncomingBlock d s blk (Time req) (ProposerAddress req) w in
  pp_world r = out_world v
  /\ pp_service r = out_service v
  /\ exists before,
       pp_events r = before ++ EvVerifyIncomingBlock blk :: out_events v
       /\ List.length before <= 1
       /\ Forall (fun e => is_verify_sidecars e = true) before.
Proof.
  intros Hblk Hsc Hok. cbv zeta. unfold ProcessProposal. rewrite Hblk, Hsc.
  destruct sidecars as [l|].
  - destruct (Nat.ltb 0 (List.length l)) eqn:Hlen.
    + apply Nat.ltb_lt in Hlen. rewrite (Hok l eq_refl Hlen). simpl.
      destruct (out_err _); (split; [reflexivity|]); (split; [reflexivity|]);
        exists [EvVerifySidecars l (GetHeader blk)];
        (split; [reflexivity|]); (split; [simpl; lia|]);
        now repeat constructor.
    + simpl.
      destruct (out_err _); (split; [reflexivity|]); (split; [reflexivity|]);
        exists []; (split; [reflexivity|]); (split; [simpl; lia|]);
        constructor.
  - simpl.
    destruct (out_err _); (split; [reflexivity|]); (split; [reflexivity|]);
      exists []; (split; [reflexivity|]); (split; [simpl; lia|]);
      constructor.
Qed.

(** X19. [VerifyIncomingBlock] copies the state once and runs the state
    processor once when the block is not nil, and does neither when it is;
    it reads the payload header at most once. *)
Theorem VerifyIncomingBlock_one_copy_one_transition (s : Service)
    (blk : BeaconBlock) (t : Z) (addr : list Z) (w : W) :
  let r := VerifyIncomingBlock d s blk t addr w in
  let n := match blk with Some _ => 1 | None => 0 end in
  List.length (List.filter is_copy (out_events r)) = n
  /\ List.length (List.filter is_transition (out_events r)) = n
  /\ List.length (List.filter is_read_header (out_events r)) <= n.
Proof.
  cbv zeta.
  vib_cases s blk t addr w; cbn [out_events]; repeat split; simpl; lia.
Qed.

End ServiceRuns.

(* ===================================================================== *)
(** ** More on the state store *)
(* ===================================================================== *)

Section StoreRuns.
Import StateDB Observe.

Implicit Types (h : Heap) (l : Layer) (s : StateDB) (k : string).

Lemma put_dirty h c k ov l k' :
  h !! c = Some l ->
  exists l', put h c k ov !! c = Some l'
             /\ parent l' = parent l
             /\ dirty l' !! k'
                = if String.eqb k k' then Some ov else dirty l !! k'.
Proof.
  intros Hl. rewrite (put_lookup_eq h c k ov l Hl).
  eexists. split; [reflexivity|]. split; [reflexivity|]. cbn [dirty].
  destruct (String.eqb_spec k k') as [->|Hne].
  - apply lookup_insert_eq.
  - now apply lookup_insert_ne.
Qed.

(** What the written layer buffers for [k] after a sequence of writes. *)
Lemma apply_writes_dirty ops : forall h c l k,
  h !! c = Some l ->
  exists l', apply_writes h c ops !! c = Some l'
             /\ parent l' = parent l
             /\ dirty l' !! k
                = match last_write k ops with
                  | Some ov => Some ov
                  | None => dirty l !! k
                  end.
Proof.
  unfold apply_writes.
  induction ops as [|op ops IH]; intros h c l k Hl; [now exists l|].
  assert (Hop : exists l1, apply_write c h op !! c = Some l1
                           /\ parent l1 = parent l
                           /\ dirty l1 !! k
                              = match write_to k op with
                                | Some ov => Some ov
                                | None => dirty l !! k
                                end).
  { destruct op as [k0 v|k0]; simpl;
      [destruct (put_dirty h c k0 (Some v) l k Hl) as (l1 & H1 & H2 & H3)
      |destruct (put_dirty h c k0 None l k Hl) as (l1 & H1 & H2 & H3)];
      exists l1; (split; [exact H1|]); (split; [exact H2|]);
      rewrite H3; now destruct (String.eqb k0 k). }
  destruct Hop as (l1 & Hl1 & Hp1 & Hd1).
  destruct (IH _ c l1 k Hl1) as (l' & Hl' & Hp' & Hd').
  exists l'. simpl. split; [exact Hl'|]. split; [congruence|].
  rewrite Hd'. destruct (last_write k ops); [reflexivity|exact Hd1].
Qed.

Lemma apply_writes_length ops : forall h c,
  List.length (apply_writes h c ops) = List.length h.
Proof.
  unfold apply_writes.
  induction ops as [|op ops IH]; intros h c; [reflexivity|].
  simpl. rewrite IH. destruct op; simpl; unfold put;
    destruct (h !! c); try reflexivity; apply length_insert.
Qed.

Lemma flush_length h b : List.length (flush h b) = List.length h.
Proof.
  unfold flush. destruct (h !! b) as [l|]; [|reflexivity].
  destruct (parent l) as [p|]; [|reflexivity].
  destruct (h !! p); [|reflexivity]. now rewrite !length_insert.
Qed.

(** Flushing layer [b] leaves every layer other than [b] and its parent as
    it was. *)
Lemma flush_lookup_other h b l p i :
  h !! b = Some l -> parent l = Some p -> i <> b -> i <> p ->
  flush h b !! i = h !! i.
Proof.
  intros Hb Hp Hib Hip. unfold flush. rewrite Hb, Hp.
  destruct (h !! p); [|reflexivity].
  now rewrite !list_lookup_insert_ne by congruence.
Qed.

(** The flushed layer stays where it is, empty, over the same parent. *)
Lemma flush_lookup_self h b l p :
  wf h -> h !! b = Some l -> parent l = Some p ->
  flush h b !! b = Some {| parent := Some p; dirty := ∅ |}.
Proof.
  intros Hwf Hb Hp. pose proof (Hwf b l p Hb Hp) as Hlt.
  pose proof (lookup_lt_Some _ _ _ Hb) as Hblt.
  unfold flush. rewrite Hb, Hp.
  destruct (h !! p) as [lp|] eqn:Hlp.
  2: { apply lookup_ge_None in Hlp. lia. }
  rewrite list_lookup_insert_eq by (now rewrite length_insert).
  reflexivity.
Qed.

(** After its flush a layer reads what it read before. *)
Lemma Get_flush_self h b l p k :
  wf h -> h !! b = Some l -> parent l = Some p ->
  Get (flush h b) b k = Get h b k.
Proof.
  intros Hwf Hb Hp. pose proof (Hwf b l p Hb Hp) as Hlt.
  unfold Get at 1. rewrite (read_S b (flush h b) b k).
  rewrite (flush_lookup_self h b l p Hwf Hb Hp). cbn [dirty parent].
  rewrite lookup_empty.
  rewrite (read_fuel (flush h b) k (wf_flush h b Hwf) b (S p) p) by lia.
  exact (Get_flush h b l p k Hwf Hb Hp).
Qed.

(** [Copy] on a handle with a context, spelled out. *)
Lemma Copy_live h s c :
  ctx s = Some c ->
  Copy s h = Some ({| ctx := Some (List.length h);
                      write := Some (List.length h) |},
                   h ++ [{| parent := Some c; dirty := ∅ |}]).
Proof. intros Hc. unfold Copy. now rewrite Hc. Qed.

(** Reading through a layer that buffers nothing for [k] is reading
    through its parent. *)
Lemma Get_through h c l p k :
  wf h -> h !! c = Some l -> parent l = Some p -> dirty l !! k = None ->
  Get h c k = Get h p k.
Proof.
  intros Hwf Hl Hp Hk. pose proof (Hwf c l p Hl Hp) as Hlt.
  unfold Get. rewrite (read_S c h c k), Hl, Hk, Hp.
  apply read_fuel; [assumption|lia..].
Qed.

(** The view of a fresh branch after writes through it. *)
Lemma branch_view h c n ops k :
  wf h -> c < List.length h -> n = List.length h ->
  Get (apply_writes (h ++ [{| parent := Some c; dirty := ∅ |}]) n ops) n k
    = match last_write k ops with
      | Some ov => ov
      | None => Get h c k
      end.
Proof.
  intros Hwf Hc ->.
  set (h1 := h ++ [{| parent := Some c; dirty := ∅ |}]).
  assert (Hwf2 : wf (apply_writes h1 (List.length h) ops)).
  { apply wf_apply_writes. now apply (wf_CacheContext h c). }
  destruct (apply_writes_dirty ops h1 (List.length h) _ k
              (CacheContext_fresh h c)) as (l' & Hl' & Hpar & Hd).
  cbn [parent dirty] in Hpar, Hd. rewrite lookup_empty in Hd.
  destruct (last_write k ops) as [ov|].
  - unfold Get. now rewrite (read_S _ _ _ k), Hl', Hd.
  - rewrite (Get_through _ _ l' c k Hwf2 Hl' Hpar Hd).
    symmetry. apply Get_agree; [assumption|].
    intros i Hi. rewrite apply_writes_lookup_ne by lia.
    symmetry. apply (CacheContext_lookup h c i). lia.
Qed.

(** X20. A branch reads its own writes and, for the rest, its parent: after
    any writes through a branch made by [Copy], a key reads as the last
    write to it set it (nothing, if that write was a deletion), and a key
    the branch never wrote reads as it does in the parent. *)
Theorem Copy_branch_reads_last_write h s (b : StateDB) (h1 : Heap)
    (ops : list WriteOp) k :
  wf h -> live h s ->
  Copy s h = Some (b, h1) ->
  view (writes_through b h1 ops) b k
    = match last_write k ops with
      | Some ov => ov
      | None => view h s k
      end.
Proof.
  intros Hwf (c & Hc & Hlt) Hcopy.
  rewrite (Copy_live h s c Hc) in Hcopy. injection Hcopy as <- <-.
  unfold writes_through, view. cbn [ctx]. rewrite Hc.
  now apply branch_view.
Qed.

(** X21. [Save] does not change what the saved branch itself reads: its
    buffer is emptied into the parent and it reads the same values through
    the parent. *)
Theorem Save_keeps_branch_view h s (b : StateDB) (h1 : Heap)
    (ops : list WriteOp) k :
  wf h -> live h s ->
  Copy s h = Some (b, h1) ->
  view (Save b (writes_through b h1 ops)) b k
    = view (writes_through b h1 ops) b k.
Proof.
  intros Hwf (c & Hc & Hlt) Hcopy.
  rewrite (Copy_live h s c Hc) in Hcopy. injection Hcopy as <- <-.
  unfold writes_through, view, Save. cbn [ctx write].
  set (h1 := h ++ [{| parent := Some c; dirty := ∅ |}]).
  destruct (apply_writes_lookup_eq ops h1 (List.length h) _
              (CacheContext_fresh h c)) as (l' & Hl' & Hpar).
  cbn [parent] in Hpar.
  apply (Get_flush_self _ _ l' c k); [|assumption..].
  apply wf_apply_writes. now apply (wf_CacheContext h c).
Qed.

(** X22. Two branches of the same state: writes through either one are
    seen neither by the other nor by the parent; before anything is saved,
    each of the two reads what the parent reads. *)
Theorem sibling_branches_are_isolated h s (b1 b2 : StateDB) (h1 h2 : Heap)
    (ops : list WriteOp) k :
  wf h -> live h s ->
  Copy s h = Some (b1, h1) ->
  Copy s h1 = Some (b2, h2) ->
  view (writes_through b1 h2 ops) b2 k = view h s k
  /\ view (writes_through b2 h2 ops) b1 k = view h s k
  /\ view (writes_through b1 h2 ops) s k = view h s k
  /\ view (writes_through b2 h2 ops) s k = view h s k.
Proof.
  intros Hwf (c & Hc & Hlt) Hcopy1 Hcopy2.
  rewrite (Copy_live h s c Hc) in Hcopy1. injection Hcopy1 as <- <-.
  rewrite (Copy_live _ s c Hc) in Hcopy2. injection Hcopy2 as <- <-.
  set (n := List.length h).
  set (L := {| parent := Some c; dirty := ∅ |}).
  set (h1 := h ++ [L]). set (h2 := h1 ++ [L]).
  assert (Hn1 : List.length h1 = S n)
    by (unfold h1; rewrite length_app; simpl; lia).
  assert (Hwf1 : wf h1) by now apply (wf_CacheContext h c).
  assert (Hwf2 : wf h2) by (apply (wf_CacheContext h1 c); [assumption|lia]).
  assert (Hlow : forall i, i < S n -> h2 !! i = h1 !! i).
  { intros i Hi. apply (CacheContext_lookup h1 c i). lia. }
  assert (Hlow1 : forall i, i < n -> h1 !! i = h !! i).
  { intros i Hi. now apply (CacheContext_lookup h c i). }
  assert (Hbase : forall m, (m = n \/ m = S n) ->
            Get (apply_writes h2 m ops) c k = Get h c k).
  { intros m Hm. symmetry. apply Get_agree; [assumption|].
    intros i Hi. rewrite apply_writes_lookup_ne by lia.
    rewrite Hlow by lia. symmetry. apply Hlow1. lia. }
  unfold writes_through, view. cbn [ctx]. rewrite Hc, Hn1. fold n.
  split; [|split; [|split]].
  - assert (Hl : apply_writes h2 n ops !! (S n) = Some L).
    { rewrite apply_writes_lookup_ne by lia. rewrite <- Hn1.
      apply (CacheContext_fresh h1 c). }
    rewrite (Get_through _ _ L c k); try reflexivity; try assumption.
    + apply Hbase. now left.
    + now apply wf_apply_writes.
  - transitivity (Get h2 n k).
    { symmetry. apply Get_agree; [assumption|].
      intros i Hi. now rewrite apply_writes_lookup_ne by lia. }
    transitivity (Get h1 n k).
    { symmetry. apply Get_agree; [assumption|].
      intros i Hi. symmetry. apply Hlow. lia. }
    exact (branch_view h c n [] k Hwf Hlt eq_refl).
  - apply Hbase. now left.
  - apply Hbase. now right.
Qed.

(** X23. A branch of a branch commits in two steps: [Save] on the inner
    branch hands its writes to the outer branch and to nobody else, the
    committed state still reading as before; [Save] on the outer branch
    then makes the committed state read what the inner branch read. *)
Theorem nested_branches_commit_in_steps h s (b1 b2 : StateDB)
    (h1 h2 : Heap) (ops : list WriteOp) k :
  wf h -> live h s ->
  Copy s h = Some (b1, h1) ->
  Copy b1 h1 = Some (b2, h2) ->
  let h3 := writes_through b2 h2 ops in
  view (Save b2 h3) s k = view h s k
  /\ view (Save b2 h3) b1 k = view h3 b2 k
  /\ view (Save b1 (Save b2 h3)) s k = view h3 b2 k.
Proof.
  intros Hwf (c & Hc & Hlt) Hcopy1 Hcopy2.
  rewrite (Copy_live h s c Hc) in Hcopy1. injection Hcopy1 as <- <-.
  rewrite (Copy_live (h ++ [{| parent := Some c; dirty := ∅ |}])
             {| ctx := Some (List.length h); write := Some (List.length h) |}
             (List.length h) eq_refl) in Hcopy2.
  injection Hcopy2 as <- <-.
  set (n := List.length h).
  set (h1 := h ++ [{| parent := Some c; dirty := ∅ |}]).
  set (h2 := h1 ++ [{| parent := Some n; dirty := ∅ |}]).
  assert (Hn1 : List.length h1 = S n)
    by (unfold h1; rewrite length_app; simpl; lia).
  assert (Hwf1 : wf h1) by now apply (wf_CacheContext h c).
  assert (Hwf2 : wf h2) by (apply (wf_CacheContext h1 n); [assumption|lia]).
  cbv zeta. unfold writes_through, view, Save. cbn [ctx write].
  rewrite Hc, Hn1.
  set (h3 := apply_writes h2 (S n) ops).
  assert (Hwf3 : wf h3) by now apply wf_apply_writes.
  destruct (apply_writes_lookup_eq ops h2 (S n)
              {| parent := Some n; dirty := ∅ |})
    as (l3 & Hl3 & Hp3).
  { rewrite <- Hn1. apply (CacheContext_fresh h1 n). }
  fold h3 in Hl3. cbn [parent] in Hp3.
  assert (Hlow : forall i, i <= n -> h3 !! i = h1 !! i).
  { intros i Hi. unfold h3. rewrite apply_writes_lookup_ne by lia.
    apply (CacheContext_lookup h1 n i). lia. }
  assert (Hinner : Get (flush h3 (S n)) n k = Get h3 (S n) k)
    by exact (Get_flush h3 (S n) l3 n k Hwf3 Hl3 Hp3).
  split; [|split].
  - symmetry. apply Get_agree; [assumption|]. intros i Hi.
    rewrite (flush_lookup_other h3 (S n) l3 n i Hl3 Hp3) by lia.
    rewrite Hlow by lia. symmetry. apply (CacheContext_lookup h c i). lia.
  - exact Hinner.
  - rewrite <- Hinner.
    assert (Hlen : n < List.length (flush h3 (S n))).
    { rewrite flush_length. unfold h3. rewrite apply_writes_length.
      unfold h2. rewrite length_app, Hn1. simpl. lia. }
    destruct (lookup_lt_is_Some_2 _ _ Hlen) as [l4 Hl4].
    destruct (flush_lookup_parent _ _ _ _ Hl4) as (l0 & Hl0 & Hpar).
    rewrite Hlow in Hl0 by lia.
    assert (Hf : h1 !! n = Some {| parent := Some c; dirty := ∅ |})
      by exact (CacheContext_fresh h c).
    rewrite Hf in Hl0. injection Hl0 as <-.
    cbn [parent] in Hpar.
    apply (Get_flush _ n l4 c k); [|assumption..].
    now apply wf_flush.
Qed.

(** X24. [Save] twice is [Save] once: the second call finds the buffer
    empty and leaves the store as the first call left it. *)
Theorem Save_is_idempotent h s :
  wf h -> Save s (Save s h) = Save s h.
Proof.
  intros Hwf. unfold Save. destruct (write s) as [b|]; [|reflexivity].
  destruct (h !! b) as [l|] eqn:Hb.
  2: { unfold flush at 2. rewrite Hb. unfold flush. now rewrite Hb. }
  destruct (parent l) as [p|] eqn:Hp.
  2: { unfold flush at 2. rewrite Hb, Hp. unfold flush. now rewrite Hb, Hp. }
  pose proof (Hwf b l p Hb Hp) as Hlt.
  pose proof (lookup_lt_Some _ _ _ Hb) as Hblt.
  destruct (h !! p) as [lp|] eqn:Hlp.
  2: { apply lookup_ge_None in Hlp. lia. }
  assert (Hself : flush h b !! b = Some {| parent := Some p; dirty := ∅ |})
    by exact (flush_lookup_self h b l p Hwf Hb Hp).
  assert (Hpar : flush h b !! p
                 = Some {| parent := parent lp; dirty := dirty l ∪ dirty lp |}).
  { unfold flush. rewrite Hb, Hp, Hlp.
    rewrite list_lookup_insert_ne by lia.
    apply list_lookup_insert_eq. now apply lookup_lt_Some in Hlp. }
  unfold flush at 1. rewrite Hself. cbn [parent dirty]. rewrite Hpar.
  cbn [parent dirty]. rewrite (left_id_L ∅ (∪)).
  rewrite (list_insert_id (flush h b) p _ Hpar).
  exact (list_insert_id (flush h b) b _ Hself).
Qed.

(** X25. The operations keep the store well formed and its handles live:
    [Copy] adds one layer, above every existing one, and returns a live
    branch with a context of its own, the parent staying live; writes and
    [Save] neither add nor remove a layer. *)
Theorem store_operations_keep_wf h s :
  wf h -> live h s ->
  (forall (b : StateDB) (h1 : Heap),
     Copy s h = Some (b, h1) ->
     wf h1 /\ live h1 b /\ live h1 s /\ ctx b <> ctx s
     /\ List.length h1 = S (List.length h)
     /\ forall i, i < List.length h -> h1 !! i = h !! i)
  /\ (forall (s' : StateDB) (ops : list WriteOp),
        wf (writes_through s' h ops)
        /\ List.length (writes_through s' h ops) = List.length h)
  /\ (forall s' : StateDB,
        wf (Save s' h) /\ List.length (Save s' h) = List.length h).
Proof.
  intros Hwf (c & Hc & Hlt). split; [|split].
  - intros b h1 Hcopy.
    rewrite (Copy_live h s c Hc) in Hcopy. injection Hcopy as <- <-.
    assert (Hlen : List.length (h ++ [{| parent := Some c; dirty := ∅ |}])
                   = S (List.length h))
      by (rewrite length_app; simpl; lia).
    split; [now apply (wf_CacheContext h c)|].
    split; [exists (List.length h); split; [reflexivity|lia]|].
    split; [exists c; split; [assumption|lia]|].
    split; [cbn [ctx]; rewrite Hc; intros [=]; lia|].
    split; [exact Hlen|].
    intros i Hi. now apply (CacheContext_lookup h c i).
  - intros s' ops. unfold writes_through.
    destruct (ctx s'); [|now split].
    split; [now apply wf_apply_writes|apply apply_writes_length].
  - intros s'. unfold Save. destruct (write s'); [|now split].
    split; [now apply wf_flush|apply flush_length].
Qed.

End StoreRuns.

(* ===================================================================== *)
(** ** More worked instances *)
(* ===================================================================== *)

Section MoreInstances.
Import Errors.



Lemma NotifyForkchoiceUpdate_touches_head_only_witness :
  exists r,
    Engine.NotifyForkchoiceUpdate 2 Engine.scripted MoreSamples.one_retry
      Samples.fcu_request = Some r
    /\ Engine.SafeBlockHash (Engine.State (Engine.fcu_req r)) = 20%Z.
Proof.
  eexists. split; [reflexivity|].
  exact (proj1 (NotifyForkchoiceUpdate_touches_head_only Engine.scripted
                  2 MoreSamples.one_retry Samples.fcu_request _ eq_refl)).
Defined.

Lemma NotifyForkchoiceUpdate_values_on_error_witness :
  exists r,
    Engine.NotifyForkchoiceUpdate 2 Engine.scripted MoreSamples.one_retry
      Samples.fcu_request = Some r
    /\ ((Engine.fcu_payloadID r = None /\ Engine.fcu_latestValidHash r = None)
        \/ (Sentinel ErrBadBlockProduced = Sentinel ErrBadBlockProduced
            /\ Engine.retries (Engine.fcu_calls r) = 1)).
Proof.
  eexists. split; [reflexivity|].
  exact (NotifyForkchoiceUpdate_values_on_error Engine.scripted
           2 MoreSamples.one_retry Samples.fcu_request _
           (Sentinel ErrBadBlockProduced) eq_refl eq_refl).
Defined.

(** A request with bad hashes never reaches the client. *)
Lemma VerifyAndNotifyNewPayload_one_call_at_most_witness :
  fst (fst (Engine.VerifyAndNotifyNewPayload Engine.scripted
              [Engine.valid_reply] MoreSamples.bad_hashes))
  = Some (Sentinel (ErrOther 3))
  /\ snd (Engine.VerifyAndNotifyNewPayload Engine.scripted
            [Engine.valid_reply] MoreSamples.bad_hashes) = [].
Proof.
  destruct (VerifyAndNotifyNewPayload_one_call_at_most Engine.scripted
              [Engine.valid_reply] MoreSamples.bad_hashes _ _ _ eq_refl)
    as (_ & _ & Hbad & _).
  destruct (Hbad _ eq_refl) as (H1 & _ & H3).
  split; [exact H1|exact H3].
Defined.

(** SYNCING on an optimistic request. *)
Lemma VerifyAndNotifyNewPayload_optimistic_hides_syncing_witness :
  Engine.is_optimistic_status
    (fst (fst (Engine.VerifyAndNotifyNewPayload Engine.scripted
                 [Engine.status_reply ErrSyncingPayloadStatus]
                 (Samples.payload_request false true)))) = false.
Proof.
  exact (VerifyAndNotifyNewPayload_optimistic_hides_syncing Engine.scripted
           [Engine.status_reply ErrSyncingPayloadStatus]
           (Samples.payload_request false true) eq_refl eq_refl).
Defined.

(** A transport error comes back as it is. *)
Lemma VerifyAndNotifyNewPayload_other_replies_unchanged_witness :
  Engine.VerifyAndNotifyNewPayload Engine.scripted []
    (Samples.payload_request false false)
  = (Engine.transport_error, [],
     [Engine.CallNewPayload Samples.payload Engine.transport_error]).
Proof.
  exact (VerifyAndNotifyNewPayload_other_replies_unchanged Engine.scripted []
           (Samples.payload_request false false) None
           Engine.transport_error [] eq_refl eq_refl eq_refl eq_refl
           eq_refl).
Defined.

Lemma ProcessProposal_decode_failure_calls_nothing_witness :
  Blockchain.pp_events
    (Blockchain.ProcessProposal
       (ServiceSamples.scripted ServiceSamples.undecodable)
       ServiceSamples.service ServiceSamples.request []) = [].
Proof.
  apply (ProcessProposal_decode_failure_calls_nothing
           (ServiceSamples.scripted ServiceSamples.undecodable)
           ServiceSamples.service ServiceSamples.request []).
  left. discriminate.
Defined.

(** Builds off: the INVALID verdict of the state processor comes back. *)
Lemma VerifyIncomingBlock_without_builds_witness :
  Blockchain.out_err
    (Blockchain.VerifyIncomingBlock
       (ServiceSamples.scripted
          (ServiceSamples.rejecting (Sentinel ErrInvalidPayloadStatus)
             (ServiceSamples.header_read ServiceSamples.healthy)))
       MoreSamples.quiet_service ServiceSamples.block 1000 [1; 2; 3]%Z [])
  = Some (Sentinel ErrInvalidPayloadStatus).
Proof.
  exact (proj1 (VerifyIncomingBlock_without_builds
                  (ServiceSamples.scripted
                     (ServiceSamples.rejecting
                        (Sentinel ErrInvalidPayloadStatus)
                        (ServiceSamples.header_read ServiceSamples.healthy)))
                  MoreSamples.quiet_service ServiceSamples.block_data 1000
                  [1; 2; 3]%Z [] 1 [] eq_refl eq_refl)).
Defined.

(** Builds on, header read: the INVALID verdict is lost. *)
Lemma VerifyIncomingBlock_rejection_replaced_by_nil_witness :
  Blockchain.out_err
    (Blockchain.VerifyIncomingBlock
       (ServiceSamples.scripted
          (ServiceSamples.rejecting (Sentinel ErrInvalidPayloadStatus)
             (ServiceSamples.header_read ServiceSamples.healthy)))
       ServiceSamples.service ServiceSamples.block 1000 [1; 2; 3]%Z [])
  = None.
Proof.
  exact (proj1 (VerifyIncomingBlock_rejection_replaced_by_nil
                  (ServiceSamples.scripted
                     (ServiceSamples.rejecting
                        (Sentinel ErrInvalidPayloadStatus)
                        (ServiceSamples.header_read ServiceSamples.healthy)))
                  ServiceSamples.service ServiceSamples.block_data 1000
                  [1; 2; 3]%Z [] 1 [] [1%Z] (Sentinel ErrInvalidPayloadStatus)
                  _ {| Blockchain.GetTimestamp := 990 |}
                  eq_refl eq_refl eq_refl eq_refl)).
Defined.

Lemma VerifyIncomingBlock_accepted_launches_build_witness :
  In (Blockchain.EvGoOptimisticBuild 1 ServiceSamples.block 1001%Z)
     (Blockchain.out_events
        (Blockchain.VerifyIncomingBlock
           (ServiceSamples.scripted ServiceSamples.healthy)
           ServiceSamples.service ServiceSamples.block 1000 [1; 2; 3]%Z [])).
Proof.
  destruct (VerifyIncomingBlock_accepted_launches_build
              (ServiceSamples.scripted ServiceSamples.healthy)
              ServiceSamples.service ServiceSamples.block_data 1000
              [1; 2; 3]%Z [] 1 [] [1%Z] _
              {| Blockchain.GetTimestamp := 990 |} None
              eq_refl eq_refl eq_refl eq_refl)
    as (_ & _ & _ & Hgo & _).
  exact (Hgo eq_refl).
Defined.

Lemma ProcessProposal_runs_VerifyIncomingBlock_witness :
  Blockchain.pp_world
    (Blockchain.ProcessProposal
       (ServiceSamples.scripted ServiceSamples.healthy)
       ServiceSamples.service ServiceSamples.request [])
  = Blockchain.out_world
      (Blockchain.VerifyIncomingBlock
         (ServiceSamples.scripted ServiceSamples.healthy)
         ServiceSamples.service ServiceSamples.block 1000 [1; 2; 3]%Z []).
Proof.
  apply (ProcessProposal_runs_VerifyIncomingBlock
           (ServiceSamples.scripted ServiceSamples.healthy)
           ServiceSamples.service ServiceSamples.request []
           ServiceSamples.block (Some [ServiceSamples.sidecar])
           eq_refl eq_refl).
  intros l _ _. reflexivity.
Defined.

(** Set, set another key, delete: the deleted key reads as absent, the
    other as set, an untouched one as in the parent. *)
Lemma Copy_branch_reads_last_write_witness :
  StateDB.view
    (StateDB.writes_through StoreSamples.branch StoreSamples.branched
       MoreSamples.set_then_delete) StoreSamples.branch "slot"
  = None.
Proof.
  exact (Copy_branch_reads_last_write StoreSamples.committed
           StoreSamples.state StoreSamples.branch StoreSamples.branched
           MoreSamples.set_then_delete "slot" committed_wf state_live
           eq_refl).
Defined.

Lemma Save_keeps_branch_view_witness :
  StateDB.view
    (StateDB.Save StoreSamples.branch
       (StateDB.writes_through StoreSamples.branch StoreSamples.branched
          StoreSamples.slot_write)) StoreSamples.branch "slot"
  = StateDB.view
      (StateDB.writes_through StoreSamples.branch StoreSamples.branched
         StoreSamples.slot_write) StoreSamples.branch "slot".
Proof.
  exact (Save_keeps_branch_view StoreSamples.committed StoreSamples.state
           StoreSamples.branch StoreSamples.branched StoreSamples.slot_write
           "slot" committed_wf state_live eq_refl).
Defined.

Lemma sibling_branches_are_isolated_witness :
  exists b2 h2,
    StateDB.Copy StoreSamples.state StoreSamples.branched = Some (b2, h2)
    /\ StateDB.view
         (StateDB.writes_through StoreSamples.branch h2
            StoreSamples.slot_write) b2 "slot"
       = StateDB.view StoreSamples.committed StoreSamples.state "slot".
Proof.
  do 2 eexists. split; [reflexivity|].
  exact (proj1 (sibling_branches_are_isolated StoreSamples.committed
                  StoreSamples.state StoreSamples.branch _
                  StoreSamples.branched _ StoreSamples.slot_write "slot"
                  committed_wf state_live eq_refl eq_refl)).
Defined.

Lemma nested_branches_commit_in_steps_witness :
  exists b2 h2,
    StateDB.Copy StoreSamples.branch StoreSamples.branched = Some (b2, h2)
    /\ StateDB.view
         (StateDB.Save b2
            (StateDB.writes_through b2 h2 StoreSamples.slot_write))
         StoreSamples.state "slot"
       = StateDB.view StoreSamples.committed StoreSamples.state "slot".
Proof.
  do 2 eexists. split; [reflexivity|].
  exact (proj1 (nested_branches_commit_in_steps StoreSamples.committed
                  StoreSamples.state StoreSamples.branch _
                  StoreSamples.branched _ StoreSamples.slot_write "slot"
                  committed_wf state_live eq_refl eq_refl)).
Defined.

(** On a branch with a buffered write: the first [Save] moves the write
    into the committed store, the second changes nothing. *)
Lemma Save_is_idempotent_witness :
  let h := StateDB.writes_through StoreSamples.branch StoreSamples.branched
             StoreSamples.slot_write in
  StateDB.view h StoreSamples.state "slot" = Some "1"%string
  /\ StateDB.view (StateDB.Save StoreSamples.branch h) StoreSamples.state
       "slot" = Some "2"%string
  /\ StateDB.Save StoreSamples.branch (StateDB.Save StoreSamples.branch h)
     = StateDB.Save StoreSamples.branch h.
Proof.
  cbv zeta. split; [reflexivity|]. split; [reflexivity|].
  apply (Save_is_idempotent
           (StateDB.writes_through StoreSamples.branch StoreSamples.branched
              StoreSamples.slot_write)
           StoreSamples.branch).
  exact (wf_apply_writes StoreSamples.slot_write StoreSamples.branched 1
           (wf_CacheContext StoreSamples.committed 0 committed_wf
              (Nat.lt_0_succ 0))).
Defined.

Lemma store_operations_keep_wf_witness :
  StateDB.wf StoreSamples.branched
  /\ StateDB.live StoreSamples.branched StoreSamples.branch.
Proof.
  destruct (store_operations_keep_wf StoreSamples.committed
              StoreSamples.state committed_wf state_live) as [Hcopy _].
  destruct (Hcopy StoreSamples.branch StoreSamples.branched eq_refl)
    as (Hwf & Hlive & _).
  split; assumption.
Defined.

End MoreInstances.
